(** * RFSN dashboard: the live-session controller of [ui/app.js]

    A shallow embedding of the class [RFSNApp]: its fields, the part of the
    page it reads and writes, and the platform objects it drives (interval
    timers, pending requests, web sockets).  Every method is a function on
    that state; an [async] method is split at each [await] into the part
    that runs at once and the continuation that runs when the awaited
    promise settles. *)

From Stdlib Require Import ZArith QArith Qminmax Qround Lia.
From stdpp Require Import gmap strings list sorting.

Set Warnings "-register-all".

(** ** Values *)

(** What a message, an object literal or a form field can hold.  Numbers
    are rationals; [VNaN] is what [parseInt]/[parseFloat] give on text that
    is not a number. *)
Inductive value :=
| VUndefined
| VNull
| VNaN
| VBool (b : bool)
| VNum (q : Q)
| VStr (s : string)
| VArr (items : list value)
| VObj (fields : list (string * value)).

Definition num (z : Z) : value := VNum (inject_Z z).

Fixpoint assoc (key : string) (fields : list (string * value)) : value :=
  match fields with
  | [] => VUndefined
  | (k, v) :: rest => if String.eqb k key then v else assoc key rest
  end.

(** [data.key].  On [null] and [undefined] the access throws a TypeError:
    [nullish] is the test a caller makes before it reads a property of a
    value that may be one of them.  None of the keys the program reads is
    an inherited property, so anything that is not an object gives
    [undefined]. *)
Definition nullish (data : value) : bool :=
  match data with
  | VUndefined | VNull => true
  | _ => false
  end.

Definition prop (data : value) (key : string) : value :=
  match data with
  | VObj fields => assoc key fields
  | _ => VUndefined
  end.

(** [v !== undefined] *)
Definition defined (v : value) : bool :=
  match v with
  | VUndefined => false
  | _ => true
  end.

(** [l[i]] *)
Definition index (l : list string) (i : Z) : value :=
  if (i <? 0)%Z then VUndefined
  else match l !! Z.to_nat i with
       | Some s => VStr s
       | None => VUndefined
       end.

(** A template literal is kept as its pieces: the text between the holes
    and the values put in them.  The conversion of a value to text is the
    platform's and is not written out. *)
Inductive piece :=
| Lit (s : string)
| Interp (v : value)
| PadStart2 (v : value).   (* [v.toString().padStart(2, '0')] *)

Definition text := list piece.

Record exn := Exn { exn_name : string; exn_message : text }.

Definition TypeError_null : exn :=
  Exn "TypeError" [Lit "Cannot read properties of null"].

(** ** The configuration form *)

(** What [gatherConfig] reads off the page.  The three numeric inputs are
    recorded by the number [parseFloat]/[parseInt] read from them. *)
Record Config := {
  repoUrl : string;
  repoBranch : string;
  problemStatement : string;
  githubToken : string;
  githubUsername : string;
  createPR : bool;
  commitChanges : bool;
  llmProvider : string;
  llmApiKey : string;
  llmModel : string;
  temperature : value;
  profile : string;
  maxSteps : value;
  maxTime : value;
  useTrace : bool;
  useRipgrep : bool;
  useSymbols : bool;
  useEmbeddings : bool;
  strategyDirect : bool;
  strategyTestDriven : bool;
  strategyEnsemble : bool
}.

(** ** State *)

(** The fields of [RFSNApp].  [config] is [None] for the empty object the
    constructor puts there. *)
Record App := {
  config : option Config;
  isRunning : bool;
  startTime : option Z;
  timerInterval : option positive;
  websocket : option nat
}.

Record LogEntry := {
  log_time : Z;
  log_level : value;
  log_message : text
}.

(** The buttons, the status line and the selected tab. *)
Record Controls := {
  startBtn_disabled : bool;
  stopBtn_disabled : bool;
  pauseBtn_disabled : bool;
  statusDot : string;
  statusText : string;
  activeTab : string
}.

(** The statistics shown on the process tab.  [progressFill_width] is the
    text last assigned to [progressFill.style.width]; what the page makes
    of it (it takes a valid width and drops anything else) is not
    modelled. *)
Record Stats := {
  currentPhase : value;
  stepsCompleted : text;
  patchesTried : value;
  progressFill_width : text;
  elapsedTime : text
}.

(** The page.  [notifications] lists every notification shown so far, the
    latest last (their removal after three seconds is not modelled). *)
Record Dom := {
  form : Config;
  controls : Controls;
  stats : Stats;
  logContainer : list LogEntry;
  notifications : list (string * string)
}.

(** The callback of an interval timer: the clock of [startTimer], or the
    closure of [runSimulation] with its two counters. *)
Inductive interval :=
| ElapsedTimer
| Simulation (phaseIndex : nat) (step : Z).

(** A suspended [async] method, by the [await] it stopped at. *)
Inductive call :=
| StartFetch
| StartJson
| StopFetch.

Inductive request :=
| PostStart (body : option Config)
| PostStop.

Inductive readyState := CONNECTING | OPEN | CLOSING | CLOSED.

Record socket := {
  ws_taskId : value;
  ws_state : readyState
}.

(** The platform: live interval timers (their handles are positive, as
    the ones [setInterval] returns), suspended calls, requests sent so far
    (latest last), web sockets.  [ws_refused] says whether [new WebSocket]
    throws. *)
Record Env := {
  intervals : gmap positive interval;
  next_interval : positive;
  inflight : gmap nat call;
  next_call : nat;
  requests : list request;
  sockets : gmap nat socket;
  next_socket : nat;
  ws_refused : bool
}.

(** The controller, the page, the platform, and the history list that
    [UIEnhancements] keeps of finished tasks (its [taskHistory], which
    [addToHistory] alone extends). *)
Record World := {
  app : App;
  dom : Dom;
  env : Env;
  taskHistory : list value
}.

(** *** Field updates *)

Definition set_config (v : option Config) (a : App) : App :=
  {| config := v; isRunning := isRunning a; startTime := startTime a;
     timerInterval := timerInterval a; websocket := websocket a |}.
Definition set_isRunning (v : bool) (a : App) : App :=
  {| config := config a; isRunning := v; startTime := startTime a;
     timerInterval := timerInterval a; websocket := websocket a |}.
Definition set_startTime (v : option Z) (a : App) : App :=
  {| config := config a; isRunning := isRunning a; startTime := v;
     timerInterval := timerInterval a; websocket := websocket a |}.
Definition set_timerInterval (v : option positive) (a : App) : App :=
  {| config := config a; isRunning := isRunning a; startTime := startTime a;
     timerInterval := v; websocket := websocket a |}.
Definition set_websocket (v : option nat) (a : App) : App :=
  {| config := config a; isRunning := isRunning a; startTime := startTime a;
     timerInterval := timerInterval a; websocket := v |}.

Definition set_buttons (start stop pause : bool) (c : Controls) : Controls :=
  {| startBtn_disabled := start; stopBtn_disabled := stop;
     pauseBtn_disabled := pause; statusDot := statusDot c;
     statusText := statusText c; activeTab := activeTab c |}.
Definition set_status (dot txt : string) (c : Controls) : Controls :=
  {| startBtn_disabled := startBtn_disabled c;
     stopBtn_disabled := stopBtn_disabled c;
     pauseBtn_disabled := pauseBtn_disabled c; statusDot := dot;
     statusText := txt; activeTab := activeTab c |}.
Definition set_activeTab (tab : string) (c : Controls) : Controls :=
  {| startBtn_disabled := startBtn_disabled c;
     stopBtn_disabled := stopBtn_disabled c;
     pauseBtn_disabled := pauseBtn_disabled c; statusDot := statusDot c;
     statusText := statusText c; activeTab := tab |}.

Definition set_currentPhase (v : value) (s : Stats) : Stats :=
  {| currentPhase := v; stepsCompleted := stepsCompleted s;
     patchesTried := patchesTried s;
     progressFill_width := progressFill_width s;
     elapsedTime := elapsedTime s |}.
Definition set_stepsCompleted (v : text) (s : Stats) : Stats :=
  {| currentPhase := currentPhase s; stepsCompleted := v;
     patchesTried := patchesTried s;
     progressFill_width := progressFill_width s;
     elapsedTime := elapsedTime s |}.
Definition set_patchesTried (v : value) (s : Stats) : Stats :=
  {| currentPhase := currentPhase s; stepsCompleted := stepsCompleted s;
     patchesTried := v; progressFill_width := progressFill_width s;
     elapsedTime := elapsedTime s |}.
Definition set_progressFill_width (v : text) (s : Stats) : Stats :=
  {| currentPhase := currentPhase s; stepsCompleted := stepsCompleted s;
     patchesTried := patchesTried s; progressFill_width := v;
     elapsedTime := elapsedTime s |}.
Definition set_elapsedTime (v : text) (s : Stats) : Stats :=
  {| currentPhase := currentPhase s; stepsCompleted := stepsCompleted s;
     patchesTried := patchesTried s;
     progressFill_width := progressFill_width s; elapsedTime := v |}.

Definition on_controls (f : Controls -> Controls) (d : Dom) : Dom :=
  {| form := form d; controls := f (controls d); stats := stats d;
     logContainer := logContainer d; notifications := notifications d |}.
Definition on_stats (f : Stats -> Stats) (d : Dom) : Dom :=
  {| form := form d; controls := controls d; stats := f (stats d);
     logContainer := logContainer d; notifications := notifications d |}.
Definition set_logContainer (l : list LogEntry) (d : Dom) : Dom :=
  {| form := form d; controls := controls d; stats := stats d;
     logContainer := l; notifications := notifications d |}.
Definition set_notifications (l : list (string * string)) (d : Dom) : Dom :=
  {| form := form d; controls := controls d; stats := stats d;
     logContainer := logContainer d; notifications := l |}.

Definition set_intervals (m : gmap positive interval) (n : positive)
  (e : Env) : Env :=
  {| intervals := m; next_interval := n; inflight := inflight e;
     next_call := next_call e; requests := requests e;
     sockets := sockets e; next_socket := next_socket e;
     ws_refused := ws_refused e |}.
Definition set_inflight (m : gmap nat call) (n : nat) (e : Env) : Env :=
  {| intervals := intervals e; next_interval := next_interval e;
     inflight := m; next_call := n; requests := requests e;
     sockets := sockets e; next_socket := next_socket e;
     ws_refused := ws_refused e |}.
Definition set_requests (l : list request) (e : Env) : Env :=
  {| intervals := intervals e; next_interval := next_interval e;
     inflight := inflight e; next_call := next_call e; requests := l;
     sockets := sockets e; next_socket := next_socket e;
     ws_refused := ws_refused e |}.
Definition set_sockets (m : gmap nat socket) (n : nat) (e : Env) : Env :=
  {| intervals := intervals e; next_interval := next_interval e;
     inflight := inflight e; next_call := next_call e;
     requests := requests e; sockets := m; next_socket := n;
     ws_refused := ws_refused e |}.

Definition on_app (f : App -> App) (w : World) : World :=
  {| app := f (app w); dom := dom w; env := env w;
     taskHistory := taskHistory w |}.
Definition on_dom (f : Dom -> Dom) (w : World) : World :=
  {| app := app w; dom := f (dom w); env := env w;
     taskHistory := taskHistory w |}.
Definition on_env (f : Env -> Env) (w : World) : World :=
  {| app := app w; dom := dom w; env := f (env w);
     taskHistory := taskHistory w |}.

(** ** Platform operations *)

Definition setInterval (body : interval) (e : Env) : positive * Env :=
  let id := next_interval e in
  (id, set_intervals (<[id := body]> (intervals e)) (Pos.succ id) e).

Definition clearInterval (id : positive) (e : Env) : Env :=
  set_intervals (delete id (intervals e)) (next_interval e) e.

(** [fetch] sends the request; the caller then waits at [c]. *)
Definition fetch (r : request) (e : Env) : Env :=
  set_requests (requests e ++ [r]) e.

Definition await (c : call) (e : Env) : Env :=
  set_inflight (<[next_call e := c]> (inflight e)) (S (next_call e)) e.

Definition new_WebSocket (taskId : value) (e : Env) : nat * Env :=
  let id := next_socket e in
  (id, set_sockets
         (<[id := {| ws_taskId := taskId; ws_state := CONNECTING |}]>
            (sockets e))
         (S id) e).

Definition closing (s : socket) : socket :=
  {| ws_taskId := ws_taskId s;
     ws_state := match ws_state s with
                 | CONNECTING | OPEN => CLOSING
                 | st => st
                 end |}.

Definition ws_close (id : nat) (e : Env) : Env :=
  set_sockets (alter closing id (sockets e)) (next_socket e) e.

(** A frame of the socket is represented by what [JSON.parse] makes of its
    payload: a SyntaxError, or the value it denotes. *)
Inductive frame :=
| NotJson (payload : string)
| Json (data : value).

Definition SyntaxError_json : exn :=
  Exn "SyntaxError" [Lit "Unexpected token"].

Definition JSON_parse (f : frame) : exn + value :=
  match f with
  | NotJson _ => inl SyntaxError_json
  | Json data => inr data
  end.

(** ** Methods of [RFSNApp] *)

Definition is_empty (s : string) : bool :=
  match s with
  | EmptyString => true
  | _ => false
  end.

Definition addLog (now : Z) (level : value) (message : text) (w : World)
  : World :=
  let entry := {| log_time := now; log_level := level;
                  log_message := message |} in
  let children := logContainer (dom w) ++ [entry] in
  (* keep only the last 100 entries *)
  on_dom (set_logContainer (drop (length children - 100) children)) w.

Definition clearLog (now : Z) (w : World) : World :=
  addLog now (VStr "info") [Lit "Log cleared"]
    (on_dom (set_logContainer []) w).

Definition showNotification (message type : string) (w : World) : World :=
  on_dom (fun d => set_notifications (notifications d ++ [(message, type)]) d)
    w.

Definition status_background (status : string) : string :=
  if String.eqb status "idle" then "var(--success)"
  else if String.eqb status "running" then "var(--primary)"
  else if String.eqb status "error" then "var(--danger)"
  else if String.eqb status "paused" then "var(--warning)"
  else "var(--success)".

Definition updateStatus (status txt : string) (w : World) : World :=
  on_dom (on_controls (set_status (status_background status) txt)) w.

Definition switchTab (tab : string) (w : World) : World :=
  on_dom (on_controls (set_activeTab tab)) w.

Definition gatherConfig (w : World) : Config := form (dom w).

Definition config_errors (c : Config) : list string :=
  (if is_empty (repoUrl c) then ["Repository URL is required"] else [])
  ++ (if is_empty (problemStatement c)
      then ["Problem statement is required"] else [])
  ++ (if is_empty (llmApiKey c) then ["LLM API key is required"] else []).

Definition validateConfig (now : Z) (w : World) : bool * World :=
  let errors := config_errors (gatherConfig w) in
  if (0 <? length errors)%nat then
    (false,
     showNotification "❌ Configuration errors. Check log." "error"
       (fold_left (fun w err => addLog now (VStr "error") [Lit err] w)
          errors w))
  else (true, w).

Definition updatePhase (phase : value) (w : World) : World :=
  on_dom (on_stats (set_currentPhase phase)) w.

Definition updateProgress (data : value) (w : World) : World :=
  let w :=
    if defined (prop data "steps") then
      on_dom (on_stats (set_stepsCompleted
        [Interp (prop data "current_step"); Lit " / ";
         Interp (prop data "total_steps")])) w
    else w in
  let w :=
    if defined (prop data "patches") then
      on_dom (on_stats (set_patchesTried (prop data "patches"))) w
    else w in
  if defined (prop data "progress") then
    on_dom (on_stats (set_progressFill_width
      [Interp (prop data "progress"); Lit "%"])) w
  else w.

Definition cleanupAfterRun (now : Z) (w : World) : World :=
  let w := on_app (set_isRunning false) w in
  let w :=
    match timerInterval (app w) with
    | Some id => on_app (set_timerInterval None) (on_env (clearInterval id) w)
    | None => w
    end in
  let w :=
    match websocket (app w) with
    | Some id => on_app (set_websocket None) (on_env (ws_close id) w)
    | None => w
    end in
  let w := on_dom (on_controls (set_buttons false true true)) w in
  let w := updateStatus "idle" "Ready" w in
  addLog now (VStr "info") [Lit "Agent stopped"] w.

Definition handleTaskComplete (now : Z) (data : value) (w : World) : World :=
  let w := addLog now (VStr "success") [Lit "✅ Task completed!"] w in
  let w := addLog now (VStr "info")
             [Lit "Success: "; Interp (prop data "success")] w in
  let w := addLog now (VStr "info")
             [Lit "Time: "; Interp (prop data "time_taken"); Lit "s"] w in
  let w := cleanupAfterRun now w in
  let w := showNotification "✅ Task completed!" "success" w in
  switchTab "results" w.

(** The [switch] compares [data.type] with [===]: only a string can match,
    and a type that matches no case does nothing. *)
Definition handleWebSocketMessage (now : Z) (data : value) (w : World)
  : World * option exn :=
  if nullish data then (w, Some TypeError_null)
  else
    match prop data "type" with
    | VStr type =>
        if String.eqb type "phase" then
          (addLog now (VStr "info") [Lit "Phase: "; Interp (prop data "phase")]
             (updatePhase (prop data "phase") w), None)
        else if String.eqb type "log" then
          (addLog now (prop data "level") [Interp (prop data "message")] w,
           None)
        else if String.eqb type "progress" then
          (updateProgress data w, None)
        else if String.eqb type "complete" then
          (handleTaskComplete now data w, None)
        else if String.eqb type "error" then
          (addLog now (VStr "error") [Interp (prop data "message")] w, None)
        else (w, None)
    | _ => (w, None)
    end.

(** The four handlers [connectWebSocket] installs on the socket. *)
Definition onopen (now : Z) (w : World) : World :=
  addLog now (VStr "success") [Lit "Connected to live updates"] w.

Definition onmessage (now : Z) (f : frame) (w : World) : World * option exn :=
  match JSON_parse f with
  | inl e => (w, Some e)
  | inr data => handleWebSocketMessage now data w
  end.

Definition onerror (now : Z) (w : World) : World :=
  on_app (set_websocket None)
    (addLog now (VStr "error")
       [Lit "WebSocket error, falling back to polling"] w).

Definition onclose (now : Z) (w : World) : World :=
  addLog now (VStr "info") [Lit "Live updates disconnected"] w.

Definition connectWebSocket (now : Z) (taskId : value) (w : World) : World :=
  if ws_refused (env w) then
    addLog now (VStr "warning")
      [Lit "Could not connect WebSocket, using simulation"] w
  else
    let '(id, e) := new_WebSocket taskId (env w) in
    on_app (set_websocket (Some id)) (on_env (fun _ => e) w).

Definition startTimer (w : World) : World :=
  let '(id, e) := setInterval ElapsedTimer (env w) in
  on_app (set_timerInterval (Some id)) (on_env (fun _ => e) w).

(** [Date.now() - this.startTime]: [null] counts as 0. *)
Definition since (now : Z) (start : option Z) : Z :=
  (now - default 0 start)%Z.

(** The callback of [startTimer]; [startTime] is tested for truth, so a
    start at time 0 shows nothing. *)
Definition timer_tick (now : Z) (w : World) : World :=
  match startTime (app w) with
  | Some t =>
      if (t =? 0)%Z then w
      else
        let elapsed := (since now (Some t) / 1000)%Z in
        let minutes := (elapsed / 60)%Z in
        let seconds := Z.rem elapsed 60 in
        on_dom (on_stats (set_elapsedTime
          [Interp (num minutes); Lit ":"; PadStart2 (num seconds)])) w
  | None => w
  end.

(** *** The simulation *)

Definition phases : list string :=
  ["INGEST"; "LOCALIZE"; "PLAN"; "PATCH"; "TEST"; "DIAGNOSE"; "FINALIZE"].

Definition messages : list string :=
  ["Analyzing repository structure...";
   "Running localization layers...";
   "Found 5 potential bug locations";
   "Generating patch candidates...";
   "Testing patch #1...";
   "Patch validation successful";
   "Running test suite..."].

Definition runSimulation (w : World) : World :=
  let '(_, e) := setInterval (Simulation 0 0) (env w) in
  on_env (fun _ => e) w.

(** One firing of the interval [simulationInterval], whose closure holds
    [phaseIndex] and [step]; [random] is what [Math.random()] returns if it
    is called.  The program computes [progress] in floating point; the
    exact quotient stands for it here, and only as the text assigned to the
    bar. *)
Definition simulation_tick (now : Z) (random : Q) (simulationInterval : positive)
  (phaseIndex : nat) (step : Z) (w : World) : World :=
  if negb (isRunning (app w)) then
    on_env (clearInterval simulationInterval) w
  else
    (* Update phase *)
    let '(w, phaseIndex) :=
      if (Z.rem step 3 =? 0)%Z && (phaseIndex <? length phases)%nat then
        let phase := index phases (Z.of_nat phaseIndex) in
        (addLog now (VStr "info") [Lit "Entering phase: "; Interp phase]
           (updatePhase phase w),
         S phaseIndex)
      else (w, phaseIndex) in
    (* Update progress *)
    let step := (step + 1)%Z in
    let progress := Qmin ((inject_Z step / 30) * 100) 100 in
    let w := updateProgress
               (VObj [("current_step", num step);
                      ("total_steps", num 30);
                      ("patches", num (step / 5));
                      ("progress", VNum progress)]) w in
    (* Random log messages *)
    let w :=
      if (Z.rem step 2 =? 0)%Z then
        addLog now (VStr "info")
          [Interp (index messages
                     (Qfloor (random * inject_Z (Z.of_nat (length messages)))))]
          w
      else w in
    let w :=
      on_env (fun e => set_intervals
                (alter (fun _ => Simulation phaseIndex step)
                   simulationInterval (intervals e))
                (next_interval e) e) w in
    (* Complete after 30 steps *)
    if (30 <=? step)%Z then
      handleTaskComplete now
        (VObj [("success", VBool true);
               ("time_taken", num (since now (startTime (app w)) / 1000))])
        (on_env (clearInterval simulationInterval) w)
    else w.

(** *** Start and stop *)

(** The [catch] of [startAgent]. *)
Definition startAgent_catch (now : Z) (error : exn) (w : World) : World :=
  let w := addLog now (VStr "error")
             (Lit "Failed to start agent: " :: exn_message error) w in
  let w := addLog now (VStr "warning")
             [Lit "Running in simulation mode (backend not available)"] w in
  runSimulation w.

(** [startAgent] up to its first [await]. *)
Definition startAgent (now : Z) (w : World) : World :=
  let '(valid, w) := validateConfig now w in
  if negb valid then w
  else if isRunning (app w) then
    showNotification "⚠️ Agent is already running" "warning" w
  else
    let cfg := gatherConfig w in
    let w := on_app (set_config (Some cfg)) w in
    let w := on_app (set_isRunning true) w in
    let w := on_app (set_startTime (Some now)) w in
    (* Update UI *)
    let w := on_dom (on_controls (set_buttons true false false)) w in
    let w := updateStatus "running" "Running" w in
    (* Switch to process tab *)
    let w := switchTab "process" w in
    (* Clear previous logs *)
    let w := clearLog now w in
    let w := addLog now (VStr "info") [Lit "Starting RFSN Agent..."] w in
    let w := addLog now (VStr "info")
               [Lit "Repository: "; Interp (VStr (repoUrl cfg))] w in
    let w := addLog now (VStr "info")
               [Lit "Profile: "; Interp (VStr (profile cfg))] w in
    let w := addLog now (VStr "info")
               [Lit "Max Steps: "; Interp (maxSteps cfg);
                Lit ", Max Time: "; Interp (maxTime cfg); Lit " minutes"] w in
    (* Start timer *)
    let w := startTimer w in
    (* Send start request to backend *)
    on_env (await StartFetch) (on_env (fetch (PostStart (config (app w)))) w).

(** What a promise settles with: a rejection, the response of a [fetch],
    or the body [response.json()] reads. *)
Inductive settlement :=
| Rejected (error : exn)
| Response (ok : bool) (status : Z)
| Body (data : value).

(** [startAgent] after [await fetch(...)]. *)
Definition startAgent_fetched (now : Z) (r : settlement) (w : World)
  : World :=
  match r with
  | Rejected error => startAgent_catch now error w
  | Response ok status =>
      if negb ok then
        startAgent_catch now
          (Exn "Error" [Lit "Server returned "; Interp (num status)]) w
      else on_env (await StartJson) w
  | Body _ => w   (* a fetch does not settle with a body *)
  end.

(** [startAgent] after [await response.json()]. *)
Definition startAgent_json (now : Z) (r : settlement) (w : World) : World :=
  match r with
  | Rejected error => startAgent_catch now error w
  | Body data =>
      if nullish data then startAgent_catch now TypeError_null w
      else
        let w := addLog now (VStr "success")
                   [Lit "Agent started successfully. Task ID: ";
                    Interp (prop data "task_id")] w in
        (* Connect WebSocket for live updates *)
        connectWebSocket now (prop data "task_id") w
  | Response _ _ => w   (* [json()] does not settle with a response *)
  end.

(** [stopAgent] up to its [await]. *)
Definition stopAgent (now : Z) (w : World) : World :=
  if negb (isRunning (app w)) then w
  else
    let w := addLog now (VStr "warning") [Lit "Stopping agent..."] w in
    on_env (await StopFetch) (on_env (fetch PostStop) w).

(** [stopAgent] after [await fetch(...)]. *)
Definition stopAgent_fetched (now : Z) (r : settlement) (w : World) : World :=
  let w :=
    match r with
    | Rejected _ =>
        addLog now (VStr "warning")
          [Lit "Could not reach backend, stopping locally"] w
    | _ => addLog now (VStr "info") [Lit "Stop signal sent to agent"] w
    end in
  cleanupAfterRun now w.

(** ** The event loop *)

(** What the page and the platform can deliver to the controller.  One
    event is handled to its end before the next; [now] is the clock while
    it is handled. *)
Inductive event :=
| Click_startBtn
| Click_stopBtn
| Settle (id : nat) (r : settlement)
| Fire (id : positive) (random : Q)
| Socket_open (id : nat)
| Socket_message (id : nat) (f : frame)
| Socket_error (id : nat)
| Socket_close (id : nat).

Definition set_ws_state (st : readyState) (id : nat) (w : World) : World :=
  on_env (fun e => set_sockets
            (alter (fun s => {| ws_taskId := ws_taskId s; ws_state := st |})
               id (sockets e))
            (next_socket e) e) w.

Definition resume (now : Z) (c : call) (r : settlement) (w : World) : World :=
  match c with
  | StartFetch => startAgent_fetched now r w
  | StartJson => startAgent_json now r w
  | StopFetch => stopAgent_fetched now r w
  end.

(** The state after the event, and the exception its handler let escape,
    if any. *)
Definition dispatch (now : Z) (ev : event) (w : World) : World * option exn :=
  match ev with
  | Click_startBtn => (startAgent now w, None)
  | Click_stopBtn => (stopAgent now w, None)
  | Settle id r =>
      match inflight (env w) !! id with
      | Some c =>
          (resume now c r
             (on_env (fun e => set_inflight (delete id (inflight e))
                                 (next_call e) e) w),
           None)
      | None => (w, None)
      end
  | Fire id random =>
      match intervals (env w) !! id with
      | Some ElapsedTimer => (timer_tick now w, None)
      | Some (Simulation phaseIndex step) =>
          (simulation_tick now random id phaseIndex step w, None)
      | None => (w, None)
      end
  | Socket_open id =>
      match ws_state <$> sockets (env w) !! id with
      | Some CONNECTING => (onopen now (set_ws_state OPEN id w), None)
      | _ => (w, None)
      end
  | Socket_message id f =>
      match ws_state <$> sockets (env w) !! id with
      | Some OPEN => onmessage now f w
      | _ => (w, None)
      end
  | Socket_error id =>
      match ws_state <$> sockets (env w) !! id with
      | Some CLOSED | None => (w, None)
      | Some _ => (onerror now w, None)
      end
  | Socket_close id =>
      match ws_state <$> sockets (env w) !! id with
      | Some CLOSED | None => (w, None)
      | Some _ => (onclose now (set_ws_state CLOSED id w), None)
      end
  end.

(** A run: the events in order, each with the time it is handled at.  An
    escaped exception is reported by the platform and the loop goes on;
    [run] collects them. *)
Fixpoint run (evs : list (Z * event)) (w : World) : World * list exn :=
  match evs with
  | [] => (w, [])
  | (now, ev) :: rest =>
      let '(w, thrown) := dispatch now ev w in
      let '(w, more) := run rest w in
      (w, from_option (fun e => [e]) [] thrown ++ more)
  end.

(** ** Example states *)

Definition example_config : Config :=
  {| repoUrl := "https://github.com/octo/demo"; repoBranch := "main";
     problemStatement := "Fix the failing test";
     githubToken := EmptyString; githubUsername := EmptyString;
     createPR := false; commitChanges := false;
     llmProvider := "deepseek"; llmApiKey := "sk-123";
     llmModel := "deepseek-chat"; temperature := VNum (2 # 10);
     profile := "swebench_lite"; maxSteps := num 50; maxTime := num 30;
     useTrace := true; useRipgrep := true; useSymbols := true;
     useEmbeddings := false; strategyDirect := true;
     strategyTestDriven := false; strategyEnsemble := false |}.

(** The same form with the problem statement left empty. *)
Definition incomplete_config : Config :=
  {| repoUrl := "https://github.com/octo/demo"; repoBranch := "main";
     problemStatement := EmptyString;
     githubToken := EmptyString; githubUsername := EmptyString;
     createPR := false; commitChanges := false;
     llmProvider := "deepseek"; llmApiKey := "sk-123";
     llmModel := "deepseek-chat"; temperature := VNum (2 # 10);
     profile := "swebench_lite"; maxSteps := num 50; maxTime := num 30;
     useTrace := true; useRipgrep := true; useSymbols := true;
     useEmbeddings := false; strategyDirect := true;
     strategyTestDriven := false; strategyEnsemble := false |}.

Definition example_page (f : Config) : Dom :=
  {| form := f;
     controls := {| startBtn_disabled := false; stopBtn_disabled := true;
                    pauseBtn_disabled := true;
                    statusDot := "var(--success)"; statusText := "Ready";
                    activeTab := "config" |};
     stats := {| currentPhase := VStr "-";
                 stepsCompleted := [Lit "0 / 0"];
                 patchesTried := VStr "0";
                 progressFill_width := [Lit "0%"];
                 elapsedTime := [Lit "0:00"] |};
     logContainer := [];
     notifications := [] |}.

Definition example_platform : Env :=
  {| intervals := ∅; next_interval := 1%positive; inflight := ∅;
     next_call := 0; requests := []; sockets := ∅; next_socket := 0;
     ws_refused := false |}.

(** What the constructor of [RFSNApp] leaves when nothing was saved. *)
Definition constructor (page : Dom) (platform : Env) : World :=
  {| app := {| config := None; isRunning := false; startTime := None;
               timerInterval := None; websocket := None |};
     dom := page; env := platform; taskHistory := [] |}.

Definition idle_world : World :=
  constructor (example_page example_config) example_platform.

Definition idle_incomplete_world : World :=
  constructor (example_page incomplete_config) example_platform.

Definition network_error : settlement :=
  Rejected (Exn "TypeError" [Lit "Failed to fetch"]).

(** A session started at time 1000, its start request not yet answered. *)
Definition started_world : World :=
  (run [(1000%Z, Click_startBtn)] idle_world).1.

(** A session started at time 1000 whose start request has failed, so that
    the simulation (interval 2) drives it. *)
Definition simulated_world : World :=
  (run [(1000%Z, Click_startBtn); (1010%Z, Settle 0 network_error)]
     idle_world).1.

(** The user types in a field of the form that has no listener. *)
Definition set_form (f : Config) (d : Dom) : Dom :=
  {| form := f; controls := controls d; stats := stats d;
     logContainer := logContainer d; notifications := notifications d |}.

(** The same session after the problem statement was erased. *)
Definition simulated_world_erased : World :=
  on_dom (set_form incomplete_config) simulated_world.

(** A session started at time 1000 that the backend accepted as task
    [t1], with its socket (socket 0) open. *)
Definition connected_world : World :=
  (run [(1000%Z, Click_startBtn);
        (1010%Z, Settle 0 (Response true 200));
        (1020%Z, Settle 1 (Body (VObj [("task_id", VStr "t1")])));
        (1030%Z, Socket_open 0)]
     idle_world).1.

(** Start, then stop at once; the backend answers the stop first, then
    accepts the start, and the socket opens. *)
Definition stopped_connected_world : World :=
  (run [(1000%Z, Click_startBtn);
        (1001%Z, Click_stopBtn);
        (1005%Z, Settle 1 (Response true 200));
        (1010%Z, Settle 0 (Response true 200));
        (1020%Z, Settle 2 (Body (VObj [("task_id", VStr "t1")])));
        (1030%Z, Socket_open 0)]
     idle_world).1.

(** How many lines of the log are the plain text [s]. *)
Definition is_line (s : string) (e : LogEntry) : bool :=
  match log_message e with
  | [Lit s'] => String.eqb s s'
  | _ => false
  end.

Definition lines (s : string) (w : World) : nat :=
  length (List.filter (is_line s) (logContainer (dom w))).

(** The notification a handled [complete] leaves. *)
Definition completed : string * string := ("✅ Task completed!", "success").

Definition completions (w : World) : nat :=
  length (filter (fun n => n = completed) (notifications (dom w))).

(** * Properties *)

(** ** Basic facts about the methods *)

(** Unfolds the field updates and reduces the projections they meet. *)
Ltac fields :=
  cbv [on_app on_dom on_env on_controls on_stats
       set_config set_isRunning set_startTime set_timerInterval set_websocket
       set_buttons set_status set_activeTab
       set_currentPhase set_stepsCompleted set_patchesTried
       set_progressFill_width set_elapsedTime
       set_logContainer set_notifications
       set_intervals set_inflight set_requests set_sockets
       app dom env taskHistory
       config isRunning startTime timerInterval websocket
       form controls stats logContainer notifications
       startBtn_disabled stopBtn_disabled pauseBtn_disabled
       statusDot statusText activeTab
       currentPhase stepsCompleted patchesTried progressFill_width elapsedTime
       intervals next_interval inflight next_call requests sockets
       next_socket ws_refused].

Definition last100 (l : list LogEntry) : list LogEntry :=
  drop (length l - 100) l.

Lemma addLog_unfold now level message w :
  addLog now level message w =
  on_dom (set_logContainer
            (last100 (logContainer (dom w) ++
                        [{| log_time := now; log_level := level;
                            log_message := message |}]))) w.
Proof. reflexivity. Qed.

Lemma addLog_app now level message w : app (addLog now level message w) = app w.
Proof. reflexivity. Qed.

Lemma addLog_env now level message w : env (addLog now level message w) = env w.
Proof. reflexivity. Qed.

Lemma addLog_stats now level message w :
  stats (dom (addLog now level message w)) = stats (dom w).
Proof. reflexivity. Qed.

Lemma addLog_controls now level message w :
  controls (dom (addLog now level message w)) = controls (dom w).
Proof. reflexivity. Qed.

Lemma addLog_notifications now level message w :
  notifications (dom (addLog now level message w)) = notifications (dom w).
Proof. reflexivity. Qed.

Lemma addLog_form now level message w :
  form (dom (addLog now level message w)) = form (dom w).
Proof. reflexivity. Qed.

(** The progress object of the simulation has no [steps]: its step
    numbers are not shown. *)
Lemma updateProgress_tick a b c d w :
  updateProgress
    (VObj [("current_step", a); ("total_steps", b); ("patches", num c);
           ("progress", VNum d)]) w =
  on_dom (on_stats (set_progressFill_width [Interp (VNum d); Lit "%"]))
    (on_dom (on_stats (set_patchesTried (num c))) w).
Proof. reflexivity. Qed.

(** Logging a list of errors touches the log container only. *)
Lemma log_errors_frame now errors w :
  let w' := fold_left (fun w err => addLog now (VStr "error") [Lit err] w)
              errors w in
  app w' = app w /\ env w' = env w /\ stats (dom w') = stats (dom w) /\
  controls (dom w') = controls (dom w) /\ form (dom w') = form (dom w) /\
  notifications (dom w') = notifications (dom w).
Proof.
  revert w. induction errors as [|err errors IH]; intros w; simpl.
  - repeat split.
  - destruct (IH (addLog now (VStr "error") [Lit err] w))
      as (Ha & He & Hs & Hc & Hf & Hn).
    rewrite Ha, He, Hs, Hc, Hf, Hn. repeat split.
Qed.

Lemma config_errors_nil c :
  config_errors c = [] <->
  is_empty (repoUrl c) = false /\ is_empty (problemStatement c) = false /\
  is_empty (llmApiKey c) = false.
Proof.
  unfold config_errors.
  destruct (is_empty (repoUrl c)), (is_empty (problemStatement c)),
    (is_empty (llmApiKey c)); simpl; split; intros H;
    try discriminate; try (destruct H as (? & ? & ?); discriminate);
    repeat split.
Qed.

Lemma is_empty_spec s : is_empty s = true <-> s = EmptyString.
Proof. destruct s; simpl; split; intros H; congruence. Qed.

(** A required field left empty is a configuration error. *)
Lemma missing_field_errors c :
  repoUrl c = EmptyString \/ problemStatement c = EmptyString \/
  llmApiKey c = EmptyString ->
  config_errors c <> [].
Proof.
  intros H Hnil. apply config_errors_nil in Hnil as (H1 & H2 & H3).
  destruct H as [H | [H | H]]; apply is_empty_spec in H; congruence.
Qed.

(** The report [validateConfig] makes of a non-empty list of errors. *)
Definition validation_report (now : Z) (w : World) : World :=
  showNotification "❌ Configuration errors. Check log." "error"
    (fold_left (fun w err => addLog now (VStr "error") [Lit err] w)
       (config_errors (form (dom w))) w).

Lemma validateConfig_invalid now w :
  config_errors (form (dom w)) <> [] ->
  validateConfig now w = (false, validation_report now w).
Proof.
  intros H. unfold validateConfig, validation_report, gatherConfig.
  destruct (config_errors (form (dom w))); [congruence | reflexivity].
Qed.

Lemma validateConfig_valid now w :
  config_errors (form (dom w)) = [] -> validateConfig now w = (true, w).
Proof.
  intros H. unfold validateConfig, gatherConfig. rewrite H. reflexivity.
Qed.

(** With an invalid form, [startAgent] is the validation report and
    nothing else, whatever the state. *)
Lemma startAgent_invalid now w :
  config_errors (form (dom w)) <> [] ->
  startAgent now w = validation_report now w.
Proof.
  intros H. unfold startAgent. rewrite validateConfig_invalid by exact H.
  reflexivity.
Qed.

Lemma validation_report_frame now w :
  let w' := validation_report now w in
  app w' = app w /\ env w' = env w /\ stats (dom w') = stats (dom w) /\
  controls (dom w') = controls (dom w) /\ form (dom w') = form (dom w) /\
  notifications (dom w') =
    notifications (dom w) ++ [("❌ Configuration errors. Check log.", "error")].
Proof.
  unfold validation_report.
  destruct (log_errors_frame now (config_errors (form (dom w))) w)
    as (Ha & He & Hs & Hc & Hf & Hn).
  cbn. rewrite Hn. repeat split; assumption.
Qed.

Lemma stopAgent_not_running now w :
  isRunning (app w) = false -> stopAgent now w = w.
Proof. intros H. unfold stopAgent. rewrite H. reflexivity. Qed.

Lemma cleanupAfterRun_app now w :
  app (cleanupAfterRun now w) =
  {| config := config (app w); isRunning := false;
     startTime := startTime (app w); timerInterval := None;
     websocket := None |}.
Proof.
  unfold cleanupAfterRun, updateStatus, addLog.
  destruct w as [[cfg running started timer ws] d e h].
  fields. destruct timer, ws; reflexivity.
Qed.

Lemma cleanupAfterRun_notifications now w :
  notifications (dom (cleanupAfterRun now w)) = notifications (dom w).
Proof.
  unfold cleanupAfterRun, updateStatus, addLog.
  destruct w as [[cfg running started timer ws] d e h].
  fields. destruct timer, ws; reflexivity.
Qed.

Lemma stopAgent_fetched_app now r w :
  app (stopAgent_fetched now r w) =
  {| config := config (app w); isRunning := false;
     startTime := startTime (app w); timerInterval := None;
     websocket := None |}.
Proof.
  unfold stopAgent_fetched. rewrite cleanupAfterRun_app.
  destruct r; reflexivity.
Qed.

Lemma runSimulation_app w : app (runSimulation w) = app w.
Proof. reflexivity. Qed.

Lemma startAgent_catch_app now error w :
  app (startAgent_catch now error w) = app w.
Proof. reflexivity. Qed.

Lemma connectWebSocket_isRunning now taskId w :
  isRunning (app (connectWebSocket now taskId w)) = isRunning (app w).
Proof. unfold connectWebSocket. destruct (ws_refused (env w)); reflexivity. Qed.

(** No continuation of [startAgent] or [stopAgent] sets [isRunning]. *)
Lemma resume_not_running now c r w :
  isRunning (app w) = false -> isRunning (app (resume now c r w)) = false.
Proof.
  intros H. destruct c; cbv [resume].
  - unfold startAgent_fetched. destruct r as [e | ok status | data];
      [rewrite startAgent_catch_app; exact H | | exact H].
    destruct ok; [exact H | exact H].
  - unfold startAgent_json. destruct r as [e | ok status | data];
      [rewrite startAgent_catch_app; exact H | exact H |].
    destruct (nullish data); [rewrite startAgent_catch_app; exact H |].
    rewrite connectWebSocket_isRunning. exact H.
  - rewrite stopAgent_fetched_app. reflexivity.
Qed.

(** ** The start request *)

(** C4. Start is rejected while a session runs: the fields of the
    controller (the one session there is: [config], [isRunning],
    [startTime], the timer and the socket), its statistics and its status
    display are what they were, and the platform is too, so no request is
    sent, no timer set and no continuation left waiting.  With a valid
    form the only trace of the call is the warning shown. *)
Theorem start_rejected_while_running (now : Z) (w : World) :
  isRunning (app w) = true ->
  let w' := startAgent now w in
  app w' = app w /\ env w' = env w /\
  stats (dom w') = stats (dom w) /\ controls (dom w') = controls (dom w) /\
  (config_errors (form (dom w)) = [] ->
   w' = showNotification "⚠️ Agent is already running" "warning" w).
Proof.
  intros Hrun w'. subst w'.
  destruct (config_errors (form (dom w))) as [|err errs] eqn:Herr.
  - unfold startAgent. rewrite validateConfig_valid by exact Herr.
    simpl. rewrite Hrun. repeat split.
  - rewrite startAgent_invalid by (rewrite Herr; discriminate).
    destruct (validation_report_frame now w) as (Ha & He & Hs & Hc & _).
    repeat split; try assumption. discriminate.
Qed.

Lemma start_rejected_while_running_witness :
  let w := simulated_world in
  isRunning (app w) = true /\
  app (startAgent 2000 w) = app w /\ env (startAgent 2000 w) = env w.
Proof.
  split; [reflexivity |].
  pose proof (start_rejected_while_running 2000 simulated_world eq_refl)
    as H.
  split; [exact (proj1 H) | exact (proj1 (proj2 H))].
Defined.

(** C5. Validation comes before anything else: when a required field of
    the form (repository URL, problem statement, API key) is empty and no
    session runs, [validateConfig] fails and [startAgent] only reports it.
    The controller's fields are untouched, so the status stays idle; the
    platform is untouched, so no request, timer or socket exists that did
    not before; and a stop after it changes nothing. *)
Theorem start_invalid_config_creates_nothing (now : Z) (w : World) :
  repoUrl (form (dom w)) = EmptyString \/
  problemStatement (form (dom w)) = EmptyString \/
  llmApiKey (form (dom w)) = EmptyString ->
  isRunning (app w) = false ->
  let w' := startAgent now w in
  fst (validateConfig now w) = false /\
  notifications (dom w') =
    notifications (dom w) ++ [("❌ Configuration errors. Check log.", "error")] /\
  app w' = app w /\ isRunning (app w') = false /\ env w' = env w /\
  controls (dom w') = controls (dom w) /\
  forall later, dispatch later Click_stopBtn w' = (w', None).
Proof.
  intros Hmissing Hidle w'. subst w'.
  apply missing_field_errors in Hmissing.
  rewrite validateConfig_invalid, startAgent_invalid by exact Hmissing.
  destruct (validation_report_frame now w) as (Ha & He & Hs & Hc & Hf & Hn).
  repeat split; try assumption.
  - rewrite Ha. exact Hidle.
  - intros later. simpl. rewrite stopAgent_not_running; [reflexivity |].
    rewrite Ha. exact Hidle.
Qed.

Lemma start_invalid_config_creates_nothing_witness :
  let w := idle_incomplete_world in
  app (startAgent 1000 w) = app w /\ env (startAgent 1000 w) = env w.
Proof.
  pose proof (start_invalid_config_creates_nothing 1000 idle_incomplete_world
                (or_intror (or_introl eq_refl)) eq_refl) as H.
  split; [exact (proj1 (proj2 (proj2 H))) |
          exact (proj1 (proj2 (proj2 (proj2 (proj2 H)))))].
Defined.

(** C10. The form is checked before the running flag: with a required
    field empty, a start made while a session runs reports the
    configuration errors (one log line for each, then the error
    notification), never the already-running warning, and leaves the
    controller's fields, the statistics, the status display and the
    platform as they were. *)
Theorem start_validates_before_running_check (now : Z) (w : World) :
  repoUrl (form (dom w)) = EmptyString \/
  problemStatement (form (dom w)) = EmptyString \/
  llmApiKey (form (dom w)) = EmptyString ->
  isRunning (app w) = true ->
  let w' := startAgent now w in
  w' = validation_report now w /\
  notifications (dom w') =
    notifications (dom w) ++ [("❌ Configuration errors. Check log.", "error")] /\
  app w' = app w /\ env w' = env w /\
  stats (dom w') = stats (dom w) /\ controls (dom w') = controls (dom w).
Proof.
  intros Hmissing _ w'. subst w'.
  apply missing_field_errors in Hmissing.
  rewrite startAgent_invalid by exact Hmissing.
  destruct (validation_report_frame now w) as (Ha & He & Hs & Hc & Hf & Hn).
  repeat split; assumption.
Qed.

Lemma start_validates_before_running_check_witness :
  let w := simulated_world_erased in
  isRunning (app w) = true /\
  notifications (dom (startAgent 2000 w)) =
    notifications (dom w) ++ [("❌ Configuration errors. Check log.", "error")].
Proof.
  split; [reflexivity |].
  exact (proj1 (proj2 (start_validates_before_running_check 2000
           simulated_world_erased
           (or_intror (or_introl eq_refl)) eq_refl))).
Defined.

(** ** Runs *)

Lemma run_nil w : (run [] w).1 = w.
Proof. reflexivity. Qed.

Lemma run_cons now ev rest w :
  (run ((now, ev) :: rest) w).1 = (run rest (dispatch now ev w).1).1.
Proof.
  cbn [run]. destruct (dispatch now ev w) as [w1 thrown]. cbn [fst].
  destruct (run rest w1). reflexivity.
Qed.

Lemma run_app evs1 evs2 w :
  (run (evs1 ++ evs2) w).1 = (run evs2 (run evs1 w).1).1.
Proof.
  revert w. induction evs1 as [|[now ev] evs1 IH]; intros w.
  - reflexivity.
  - rewrite <- app_comm_cons, !run_cons. apply IH.
Qed.

(** ** The history *)

Lemma cleanupAfterRun_taskHistory now w :
  taskHistory (cleanupAfterRun now w) = taskHistory w.
Proof.
  unfold cleanupAfterRun, updateStatus, addLog.
  destruct w as [[cfg running started timer ws] d e h].
  fields. destruct timer, ws; reflexivity.
Qed.

Lemma handleTaskComplete_taskHistory now data w :
  taskHistory (handleTaskComplete now data w) = taskHistory w.
Proof.
  unfold handleTaskComplete, switchTab, showNotification.
  cbn [taskHistory on_dom]. rewrite cleanupAfterRun_taskHistory.
  reflexivity.
Qed.

Lemma updateProgress_taskHistory data w :
  taskHistory (updateProgress data w) = taskHistory w.
Proof.
  unfold updateProgress.
  destruct (defined (prop data "steps")), (defined (prop data "patches")),
    (defined (prop data "progress")); reflexivity.
Qed.

Lemma log_errors_taskHistory now errors : forall w,
  taskHistory (fold_left (fun w err => addLog now (VStr "error") [Lit err] w)
                 errors w) = taskHistory w.
Proof.
  induction errors as [|err errors IH]; intros w; [reflexivity |].
  cbn [fold_left]. rewrite IH. reflexivity.
Qed.

Lemma startAgent_taskHistory now w :
  taskHistory (startAgent now w) = taskHistory w.
Proof.
  unfold startAgent, validateConfig.
  destruct (0 <? length (config_errors (gatherConfig w)))%nat.
  - cbn [negb taskHistory showNotification on_dom]. apply log_errors_taskHistory.
  - cbn [negb]. destruct (isRunning (app w)); reflexivity.
Qed.

Lemma stopAgent_taskHistory now w :
  taskHistory (stopAgent now w) = taskHistory w.
Proof. unfold stopAgent. destruct (isRunning (app w)); reflexivity. Qed.

Lemma resume_taskHistory now c r w :
  taskHistory (resume now c r w) = taskHistory w.
Proof.
  destruct c; cbv [resume].
  - unfold startAgent_fetched. destruct r as [e | [|] status | data];
      reflexivity.
  - unfold startAgent_json, connectWebSocket.
    destruct r as [e | ok status | data]; try reflexivity.
    destruct (nullish data); [reflexivity |].
    cbn [env addLog on_dom]. destruct (ws_refused (env w)); reflexivity.
  - unfold stopAgent_fetched. rewrite cleanupAfterRun_taskHistory.
    destruct r; reflexivity.
Qed.

Lemma simulation_tick_taskHistory now random id p step w :
  taskHistory (simulation_tick now random id p step w) = taskHistory w.
Proof.
  unfold simulation_tick.
  destruct (isRunning (app w)); cbn [negb]; [| reflexivity].
  destruct ((Z.rem step 3 =? 0)%Z && (p <? length phases)%nat);
    cbv beta iota zeta; rewrite !updateProgress_tick;
    destruct (Z.rem (step + 1) 2 =? 0)%Z;
    destruct (30 <=? step + 1)%Z;
    rewrite ?handleTaskComplete_taskHistory; reflexivity.
Qed.

Lemma handleWebSocketMessage_taskHistory now data w :
  taskHistory (handleWebSocketMessage now data w).1 = taskHistory w.
Proof.
  unfold handleWebSocketMessage.
  destruct (nullish data); [reflexivity |].
  destruct (prop data "type") as [| | | | |type| |]; try reflexivity.
  destruct (String.eqb type "phase"); [reflexivity |].
  destruct (String.eqb type "log"); [reflexivity |].
  destruct (String.eqb type "progress");
    [apply updateProgress_taskHistory |].
  destruct (String.eqb type "complete");
    [apply handleTaskComplete_taskHistory |].
  destruct (String.eqb type "error"); reflexivity.
Qed.

(** No event makes the controller write the history. *)
Lemma dispatch_taskHistory now ev w :
  taskHistory (dispatch now ev w).1 = taskHistory w.
Proof.
  destruct ev as [| | id r | id random | id | id f | id | id]; cbv [dispatch].
  - apply startAgent_taskHistory.
  - apply stopAgent_taskHistory.
  - destruct (inflight (env w) !! id); [| reflexivity].
    cbv [fst]. rewrite resume_taskHistory. reflexivity.
  - destruct (intervals (env w) !! id) as [[|p step]|]; cbv [fst];
      [| apply simulation_tick_taskHistory | reflexivity].
    unfold timer_tick. destruct (startTime (app w)); [| reflexivity].
    destruct (z =? 0)%Z; reflexivity.
  - destruct (ws_state <$> sockets (env w) !! id) as [[| | |]|]; reflexivity.
  - destruct (ws_state <$> sockets (env w) !! id) as [[| | |]|];
      try reflexivity.
    unfold onmessage. destruct (JSON_parse f); [reflexivity |].
    apply handleWebSocketMessage_taskHistory.
  - destruct (ws_state <$> sockets (env w) !! id) as [[| | |]|]; reflexivity.
  - destruct (ws_state <$> sockets (env w) !! id) as [[| | |]|]; reflexivity.
Qed.

Lemma run_taskHistory evs : forall w,
  taskHistory (run evs w).1 = taskHistory w.
Proof.
  induction evs as [|[now ev] evs IH]; intros w; [reflexivity |].
  rewrite run_cons, IH. apply dispatch_taskHistory.
Qed.

(** ** The stop request *)

Lemma stopAgent_running now w :
  isRunning (app w) = true ->
  stopAgent now w =
  on_env (await StopFetch)
    (on_env (fetch PostStop)
       (addLog now (VStr "warning") [Lit "Stopping agent..."] w)).
Proof. intros H. unfold stopAgent. rewrite H. reflexivity. Qed.

Lemma await_lookup c w :
  inflight (env (on_env (await c) w)) !! next_call (env w) = Some c.
Proof. cbn. apply lookup_insert_eq. Qed.

(** Once the stop request of a stop has settled, no session runs. *)
Lemma stop_settled_not_running t1 t2 r w :
  isRunning
    (app (dispatch t2 (Settle (next_call (env w)) r) (stopAgent t1 w)).1)
  = false.
Proof.
  destruct (isRunning (app w)) eqn:Hrun.
  - rewrite stopAgent_running by exact Hrun.
    cbv [dispatch].
    change (next_call (env w)) with
      (next_call (env (on_env (fetch PostStop)
         (addLog t1 (VStr "warning") [Lit "Stopping agent..."] w)))).
    rewrite await_lookup. cbv [resume fst].
    rewrite stopAgent_fetched_app. reflexivity.
  - rewrite stopAgent_not_running by exact Hrun.
    cbv [dispatch].
    destruct (inflight (env w) !! next_call (env w)); [| exact Hrun].
    apply resume_not_running. exact Hrun.
Qed.

(** C6, as the code has it.  On a state where no session runs the stop
    returns at once: the state is the same and nothing is thrown.  And
    after a stop whose request has settled (whatever the answer), a second
    stop finds no session running and is such a no-op: no log line, no
    request and no cleanup a second time. *)
Theorem stop_idempotent (t1 t2 t3 : Z) (r : settlement) (w : World) :
  (isRunning (app w) = false -> dispatch t1 Click_stopBtn w = (w, None)) /\
  (let w' := (run [(t1, Click_stopBtn);
                   (t2, Settle (next_call (env w)) r)] w).1 in
   isRunning (app w') = false /\ dispatch t3 Click_stopBtn w' = (w', None)).
Proof.
  split.
  - intros Hidle. simpl. rewrite stopAgent_not_running by exact Hidle.
    reflexivity.
  - cbv zeta.
    assert (Hw' : (run [(t1, Click_stopBtn);
                        (t2, Settle (next_call (env w)) r)] w).1 =
                  (dispatch t2 (Settle (next_call (env w)) r)
                     (stopAgent t1 w)).1).
    { rewrite !run_cons, run_nil. reflexivity. }
    rewrite Hw'.
    pose proof (stop_settled_not_running t1 t2 r w) as Hstopped.
    split; [exact Hstopped |].
    cbn [dispatch]. rewrite stopAgent_not_running by exact Hstopped.
    reflexivity.
Qed.

Lemma stop_idempotent_witness :
  dispatch 5 Click_stopBtn idle_world = (idle_world, None) /\
  isRunning (app (run [(2000%Z, Click_stopBtn);
                       (2001%Z, Settle 1 network_error)]
                    simulated_world).1) = false.
Proof.
  split.
  - exact (proj1 (stop_idempotent 5 0 0 network_error idle_world) eq_refl).
  - exact (proj1 (proj2 (stop_idempotent 2000 2001 0 network_error
                           simulated_world))).
Defined.

(** C6, refuted as stated: two stops in a row on a running session, the
    second made before the request of the first is answered.  Both send a
    stop request, and when the two requests have settled the cleanup has
    run twice: the log says so twice. *)
Lemma stop_twice_in_a_row_counterexample :
  let w := (run [(2000%Z, Click_stopBtn); (2001%Z, Click_stopBtn);
                 (2005%Z, Settle 1 network_error);
                 (2006%Z, Settle 2 network_error)] simulated_world).1 in
  isRunning (app simulated_world) = true /\
  requests (env w) = [PostStart (Some example_config); PostStop; PostStop] /\
  lines "Stopping agent..." w = 2 /\
  lines "Agent stopped" w = 2.
Proof. cbv zeta. repeat split. Qed.

(** C3, as the code has it.  A stop on a running session logs, sends the
    stop request and waits: [isRunning] is still true then, and a second
    stop made in that window is not a no-op, it sends a second request.
    The flag falls only when the request settles, in [cleanupAfterRun];
    from then on a stop changes nothing. *)
Theorem stop_flips_when_request_settles (t1 t2 t3 : Z) (r : settlement)
  (w : World) :
  isRunning (app w) = true ->
  let w1 := stopAgent t1 w in
  isRunning (app w1) = true /\
  requests (env w1) = requests (env w) ++ [PostStop] /\
  inflight (env w1) !! next_call (env w) = Some StopFetch /\
  requests (env (stopAgent t2 w1)) = requests (env w) ++ [PostStop; PostStop] /\
  let w2 := (dispatch t3 (Settle (next_call (env w)) r) w1).1 in
  isRunning (app w2) = false /\ forall t4, stopAgent t4 w2 = w2.
Proof.
  intros Hrun w1.
  assert (Hrun1 : isRunning (app w1) = true).
  { subst w1. rewrite stopAgent_running by exact Hrun. exact Hrun. }
  split; [exact Hrun1 |].
  split; [subst w1; rewrite stopAgent_running by exact Hrun; reflexivity |].
  split.
  { subst w1. rewrite stopAgent_running by exact Hrun.
    change (next_call (env w)) with
      (next_call (env (on_env (fetch PostStop)
         (addLog t1 (VStr "warning") [Lit "Stopping agent..."] w)))).
    apply await_lookup. }
  split.
  { rewrite (stopAgent_running t2 w1) by exact Hrun1.
    subst w1. rewrite stopAgent_running by exact Hrun.
    cbn. rewrite <- app_assoc. reflexivity. }
  intros w2.
  assert (Hstopped : isRunning (app w2) = false)
    by apply stop_settled_not_running.
  split; [exact Hstopped |].
  intros t4. apply stopAgent_not_running. exact Hstopped.
Qed.

Lemma stop_flips_when_request_settles_witness :
  isRunning (app (stopAgent 2000 simulated_world)) = true.
Proof.
  exact (proj1 (stop_flips_when_request_settles 2000 2001 2002 network_error
                  simulated_world eq_refl)).
Defined.

(** C3, refuted as stated: after the first stop of a running session the
    flag is still set, and the second stop, made before the request of the
    first has settled, changes the state and sends a request of its own. *)
Lemma stop_not_synchronous_counterexample :
  let w1 := (dispatch 2000 Click_stopBtn simulated_world).1 in
  let w2 := (dispatch 2001 Click_stopBtn w1).1 in
  isRunning (app simulated_world) = true /\
  isRunning (app w1) = true /\
  w2 <> w1 /\
  requests (env w2) = [PostStart (Some example_config); PostStop; PostStop].
Proof.
  cbv zeta. repeat split.
  intros H. apply (f_equal (fun w => length (requests (env w)))) in H.
  vm_compute in H. discriminate.
Qed.

(** ** Frames of the live channel *)

Definition progress_patches : value :=
  VObj [("type", VStr "progress"); ("patches", num 2)].

Definition progress_current_step : value :=
  VObj [("type", VStr "progress"); ("current_step", num 5)].

(** The step display is guarded by [data.steps], a key no progress message
    carries: without it the display keeps what it showed. *)
Lemma updateProgress_without_steps data w :
  prop data "steps" = VUndefined ->
  stepsCompleted (stats (dom (updateProgress data w))) =
  stepsCompleted (stats (dom w)).
Proof.
  intros H. unfold updateProgress. rewrite H. cbn [defined].
  destruct (defined (prop data "patches")), (defined (prop data "progress"));
    reflexivity.
Qed.

(** C1, on the code.  After a progress frame with [patches] alone and one
    with [current_step] alone, the patch count shows 2, as the claim says,
    but the step display is what it was before both: the 5 is never shown.
    Neither frame throws. *)
Theorem progress_current_step_dropped (t1 t2 : Z) (w : World) :
  let r1 := onmessage t1 (Json progress_patches) w in
  let r2 := onmessage t2 (Json progress_current_step) r1.1 in
  r1.2 = None /\ r2.2 = None /\
  patchesTried (stats (dom r2.1)) = num 2 /\
  stepsCompleted (stats (dom r2.1)) = stepsCompleted (stats (dom w)).
Proof. repeat split. Qed.

(** The frames the claim calls malformed: text that is not JSON, and JSON
    without a [type]. *)
Definition malformed (f : frame) : bool :=
  match f with
  | NotJson _ => true
  | Json data => negb (defined (prop data "type"))
  end.

(** C2, as the code has it.  A malformed frame changes nothing at all: no
    log line is written for it, and the session goes on as it was (so a
    running one keeps running).  JSON other than [null] without a [type]
    is dropped in silence; text that is not JSON, and JSON [null], make
    the handler throw, and that exception leaves it uncaught. *)
Theorem malformed_frame_changes_nothing (now : Z) (f : frame) (w : World) :
  malformed f = true ->
  (onmessage now f w).1 = w /\
  ((onmessage now f w).2 = None <->
   exists data, f = Json data /\ nullish data = false).
Proof.
  intros Hbad. destruct f as [payload | data];
    unfold onmessage, JSON_parse, handleWebSocketMessage.
  - split; [reflexivity |]. split; [discriminate |].
    intros (data & Hf & _). discriminate.
  - destruct (nullish data) eqn:Hnull.
    + split; [reflexivity |]. split; [discriminate |].
      intros (data' & Hf & Hn). injection Hf as <-. congruence.
    + cbn [malformed] in Hbad.
      destruct (prop data "type"); try discriminate.
      split; [reflexivity |]. split; [| reflexivity].
      intros _. exists data. split; [reflexivity | exact Hnull].
Qed.

Lemma malformed_frame_changes_nothing_witness :
  (onmessage 1040 (Json (VObj [("phase", VStr "PLAN")])) connected_world).1
  = connected_world.
Proof.
  exact (proj1 (malformed_frame_changes_nothing 1040
                  (Json (VObj [("phase", VStr "PLAN")])) connected_world
                  eq_refl)).
Defined.

(** C2, refuted as stated: on a running session with its socket open, a
    frame that is not JSON leaves the handler by a SyntaxError and the log
    is what it was, so no error was logged; a frame without [type] is
    dropped without a log line either. *)
Lemma malformed_frame_counterexample :
  isRunning (app connected_world) = true /\
  dispatch 1040 (Socket_message 0 (NotJson "not json")) connected_world
  = (connected_world, Some SyntaxError_json) /\
  dispatch 1040 (Socket_message 0 (Json (VObj [("phase", VStr "PLAN")])))
    connected_world
  = (connected_world, None).
Proof. repeat split. Qed.

Lemma handleTaskComplete_app now data w :
  app (handleTaskComplete now data w) =
  {| config := config (app w); isRunning := false;
     startTime := startTime (app w); timerInterval := None;
     websocket := None |}.
Proof.
  unfold handleTaskComplete, switchTab, showNotification.
  cbn [app on_dom]. rewrite cleanupAfterRun_app. reflexivity.
Qed.

Lemma handleTaskComplete_notifications now data w :
  notifications (dom (handleTaskComplete now data w)) =
  notifications (dom w) ++ [completed].
Proof.
  unfold handleTaskComplete, switchTab, showNotification.
  cbn [dom notifications on_dom on_controls set_notifications].
  rewrite cleanupAfterRun_notifications. reflexivity.
Qed.

Lemma handleTaskComplete_activeTab now data w :
  activeTab (controls (dom (handleTaskComplete now data w))) = "results".
Proof. reflexivity. Qed.

(** C9, as the code has it.  The handler of the socket does not look at
    [isRunning].  A [complete] frame is always acted on: it runs
    [handleTaskComplete], which logs, runs the cleanup, shows the
    notification and selects the results tab, and [isRunning] is false
    after it in any case.  An [error] frame is only ever logged: in any
    state it adds one line to the log and touches nothing else.  No frame
    adds to the history. *)
Theorem terminal_frames_not_gated (now : Z) (data : value) (w : World) :
  (prop data "type" = VStr "complete" ->
   onmessage now (Json data) w = (handleTaskComplete now data w, None) /\
   isRunning (app (handleTaskComplete now data w)) = false /\
   notifications (dom (handleTaskComplete now data w)) =
     notifications (dom w) ++ [completed] /\
   activeTab (controls (dom (handleTaskComplete now data w))) = "results") /\
  (prop data "type" = VStr "error" ->
   onmessage now (Json data) w =
     (addLog now (VStr "error") [Interp (prop data "message")] w, None)) /\
  taskHistory (onmessage now (Json data) w).1 = taskHistory w.
Proof.
  split; [| split; [| apply handleWebSocketMessage_taskHistory]];
    intros Htype.
  - split.
    + cbn [onmessage JSON_parse]. unfold handleWebSocketMessage.
      destruct data; try discriminate. cbn [nullish]. rewrite Htype.
      reflexivity.
    + rewrite handleTaskComplete_app, handleTaskComplete_notifications.
      repeat split.
  - cbn [onmessage JSON_parse]. unfold handleWebSocketMessage.
    destruct data; try discriminate. cbn [nullish]. rewrite Htype.
    reflexivity.
Qed.

Definition complete_frame : value :=
  VObj [("type", VStr "complete"); ("success", VBool true);
        ("time_taken", num 3)].

Definition error_frame : value :=
  VObj [("type", VStr "error"); ("message", VStr "disk full")].

Lemma terminal_frames_not_gated_witness :
  onmessage 1040 (Json complete_frame) stopped_connected_world =
    (handleTaskComplete 1040 complete_frame stopped_connected_world, None) /\
  onmessage 1040 (Json error_frame) stopped_connected_world =
    (addLog 1040 (VStr "error") [Interp (VStr "disk full")]
       stopped_connected_world, None).
Proof.
  split.
  - exact (proj1 (proj1 (terminal_frames_not_gated 1040 complete_frame
                           stopped_connected_world) eq_refl)).
  - exact (proj1 (proj2 (terminal_frames_not_gated 1040 error_frame
                           stopped_connected_world)) eq_refl).
Defined.

(** C9, refuted as stated: a session stopped before its start request was
    answered still gets its socket; no session runs, yet a [complete]
    frame on that socket is acted on: it shows the notification, selects
    the results tab, closes the socket and adds four lines to the log. *)
Lemma complete_while_stopped_counterexample :
  let w := stopped_connected_world in
  let w' := (dispatch 1040 (Socket_message 0 (Json complete_frame)) w).1 in
  isRunning (app w) = false /\
  completions w = 0 /\ completions w' = 1 /\
  activeTab (controls (dom w)) = "process" /\
  activeTab (controls (dom w')) = "results" /\
  ws_state <$> sockets (env w) !! 0 = Some OPEN /\
  ws_state <$> sockets (env w') !! 0 = Some CLOSING /\
  length (logContainer (dom w')) = length (logContainer (dom w)) + 4.
Proof. cbv zeta. repeat split; vm_compute; reflexivity. Qed.

(** ** The simulation *)

(** Firings of one interval, each with its time and its random draw. *)
Definition fires (id : positive) (ticks : list (Z * Q)) : list (Z * event) :=
  map (fun '(now, random) => (now, Fire id random)) ticks.

(** A session runs and the simulation [id] has made [step] steps. *)
Definition ticking (w : World) (id : positive) (step : Z) : Prop :=
  isRunning (app w) = true /\
  exists phaseIndex,
    intervals (env w) !! id = Some (Simulation phaseIndex step).

(** The object the simulation hands to [handleTaskComplete]. *)
Definition completion (now : Z) (w : World) : value :=
  VObj [("success", VBool true);
        ("time_taken", num (since now (startTime (app w)) / 1000))].

(** The lines a handled [complete] leaves at the end of the log. *)
Definition completion_log (now : Z) (data : value) : list LogEntry :=
  [ {| log_time := now; log_level := VStr "success";
       log_message := [Lit "✅ Task completed!"] |};
    {| log_time := now; log_level := VStr "info";
       log_message := [Lit "Success: "; Interp (prop data "success")] |};
    {| log_time := now; log_level := VStr "info";
       log_message := [Lit "Time: "; Interp (prop data "time_taken");
                       Lit "s"] |};
    {| log_time := now; log_level := VStr "info";
       log_message := [Lit "Agent stopped"] |} ].

Lemma last100_suffix l tail :
  length tail <= 100 -> exists older, last100 (l ++ tail) = older ++ tail.
Proof.
  intros H. exists (drop (length (l ++ tail) - 100) l). unfold last100.
  apply drop_app_le. rewrite length_app. lia.
Qed.

Lemma grow_log (log older tail : list LogEntry) e :
  log = older ++ tail -> length tail < 100 ->
  exists older', last100 (log ++ [e]) = older' ++ (tail ++ [e]).
Proof.
  intros -> H. rewrite <- app_assoc. apply last100_suffix.
  rewrite length_app. simpl. lia.
Qed.

Lemma cleanupAfterRun_log now w :
  logContainer (dom (cleanupAfterRun now w)) =
  last100 (logContainer (dom w) ++
             [{| log_time := now; log_level := VStr "info";
                 log_message := [Lit "Agent stopped"] |}]).
Proof.
  unfold cleanupAfterRun, updateStatus, addLog.
  destruct w as [[cfg running started timer ws] d e h].
  fields. destruct timer, ws; reflexivity.
Qed.

Lemma cleanupAfterRun_intervals now w :
  intervals (env (cleanupAfterRun now w)) =
  match timerInterval (app w) with
  | Some id => delete id (intervals (env w))
  | None => intervals (env w)
  end.
Proof.
  unfold cleanupAfterRun, updateStatus, addLog.
  destruct w as [[cfg running started timer ws] d e h].
  fields. destruct timer, ws; reflexivity.
Qed.

Lemma cleanupAfterRun_inflight now w :
  inflight (env (cleanupAfterRun now w)) = inflight (env w).
Proof.
  unfold cleanupAfterRun, updateStatus, addLog.
  destruct w as [[cfg running started timer ws] d e h].
  fields. destruct timer, ws; reflexivity.
Qed.

Lemma cleanupAfterRun_next_interval now w :
  next_interval (env (cleanupAfterRun now w)) = next_interval (env w).
Proof.
  unfold cleanupAfterRun, updateStatus, addLog.
  destruct w as [[cfg running started timer ws] d e h].
  fields. destruct timer, ws; reflexivity.
Qed.

Lemma handleTaskComplete_log now data w :
  exists older,
    logContainer (dom (handleTaskComplete now data w)) =
    older ++ completion_log now data.
Proof.
  unfold handleTaskComplete, switchTab, showNotification.
  cbn [dom logContainer on_dom on_controls set_notifications].
  rewrite cleanupAfterRun_log, !addLog_unfold.
  cbn [dom logContainer on_dom set_logContainer].
  destruct (grow_log (logContainer (dom w)) (logContainer (dom w)) []
              {| log_time := now; log_level := VStr "success";
                 log_message := [Lit "✅ Task completed!"] |})
    as [o1 H1]; [symmetry; apply app_nil_r | simpl; lia |].
  destruct (grow_log _ _ _
              {| log_time := now; log_level := VStr "info";
                 log_message := [Lit "Success: ";
                                 Interp (prop data "success")] |} H1)
    as [o2 H2]; [simpl; lia |].
  destruct (grow_log _ _ _
              {| log_time := now; log_level := VStr "info";
                 log_message := [Lit "Time: ";
                                 Interp (prop data "time_taken");
                                 Lit "s"] |} H2)
    as [o3 H3]; [simpl; lia |].
  destruct (grow_log _ _ _
              {| log_time := now; log_level := VStr "info";
                 log_message := [Lit "Agent stopped"] |} H3)
    as [o4 H4]; [simpl; lia |].
  exists o4. exact H4.
Qed.

Lemma handleTaskComplete_intervals now data w :
  intervals (env (handleTaskComplete now data w)) =
  match timerInterval (app w) with
  | Some id => delete id (intervals (env w))
  | None => intervals (env w)
  end.
Proof.
  unfold handleTaskComplete, switchTab, showNotification.
  cbn [env on_dom]. rewrite cleanupAfterRun_intervals. reflexivity.
Qed.

(** A tick before the thirtieth: the session goes on, nothing but the
    statistics, the log and the closure of the simulation changes. *)
Lemma tick_early now random id step w :
  ticking w id step -> (0 <= step < 29)%Z ->
  let w' := (dispatch now (Fire id random) w).1 in
  ticking w' id (step + 1) /\ app w' = app w /\
  notifications (dom w') = notifications (dom w) /\
  inflight (env w') = inflight (env w).
Proof.
  intros (Hrun & p & Hid) Hstep. cbv zeta. cbv [dispatch]. rewrite Hid.
  cbv [fst]. unfold simulation_tick. rewrite Hrun. cbn [negb].
  assert (Hlt : (30 <=? step + 1)%Z = false) by (apply Z.leb_gt; lia).
  rewrite Hlt.
  destruct ((Z.rem step 3 =? 0)%Z && (p <? length phases)%nat);
    destruct (Z.rem (step + 1) 2 =? 0)%Z.
  all: split; [split; [exact Hrun |] | repeat split].
  all: eexists; cbn [env on_env intervals set_intervals];
    rewrite lookup_alter_eq.
  all: match goal with
       | |- _ <$> ?m !! _ = _ => change m with (intervals (env w))
       end; rewrite Hid; reflexivity.
Qed.

(** The thirtieth tick completes the run. *)
Lemma tick_last now random id w :
  ticking w id 29 ->
  let w' := (dispatch now (Fire id random) w).1 in
  isRunning (app w') = false /\
  notifications (dom w') = notifications (dom w) ++ [completed] /\
  intervals (env w') !! id = None /\
  exists older,
    logContainer (dom w') = older ++ completion_log now (completion now w).
Proof.
  intros (Hrun & p & Hid). cbv zeta. cbv [dispatch]. rewrite Hid.
  cbv [fst]. unfold simulation_tick. rewrite Hrun. cbn [negb].
  change (30 <=? 29 + 1)%Z with true. cbv iota.
  destruct ((Z.rem 29 3 =? 0)%Z && (p <? length phases)%nat);
    change (Z.rem (29 + 1) 2 =? 0)%Z with true; cbv iota beta zeta.
  all: rewrite handleTaskComplete_app, handleTaskComplete_notifications,
         handleTaskComplete_intervals.
  all: split; [reflexivity |]; split; [reflexivity |]; split;
         [| apply handleTaskComplete_log].
  all: cbn [env on_env intervals set_intervals clearInterval next_interval];
    match goal with
    | |- match ?t with _ => _ end !! _ = None => destruct t
    end; rewrite ?lookup_delete_None, ?lookup_delete_eq; auto.
Qed.

(** A tick after the session has stopped clears the interval and does
    nothing else. *)
Lemma tick_stopped now random id p step w :
  isRunning (app w) = false ->
  intervals (env w) !! id = Some (Simulation p step) ->
  dispatch now (Fire id random) w = (on_env (clearInterval id) w, None).
Proof.
  intros Hrun Hid. cbv [dispatch]. rewrite Hid. unfold simulation_tick.
  rewrite Hrun. reflexivity.
Qed.

(** An interval that was cleared does not fire. *)
Lemma fire_cleared now random id w :
  intervals (env w) !! id = None ->
  dispatch now (Fire id random) w = (w, None).
Proof. intros Hid. cbv [dispatch]. rewrite Hid. reflexivity. Qed.

(** Any number of ticks that stays below thirty. *)
Lemma ticks_early id ticks : forall step w,
  ticking w id step -> (0 <= step)%Z ->
  (step + Z.of_nat (length ticks) <= 29)%Z ->
  let w' := (run (fires id ticks) w).1 in
  ticking w' id (step + Z.of_nat (length ticks)) /\ app w' = app w /\
  notifications (dom w') = notifications (dom w) /\
  inflight (env w') = inflight (env w).
Proof.
  induction ticks as [|[now random] ticks IH]; intros step w Hw Hpos Hlen.
  - cbn [length fires map]. rewrite run_nil.
    replace (step + Z.of_nat 0)%Z with step by lia.
    split; [exact Hw | repeat split].
  - cbn [length] in Hlen |- *. cbn [fires map]. rewrite run_cons.
    destruct (tick_early now random id step w Hw ltac:(lia))
      as (Hw1 & Ha1 & Hn1 & Hi1).
    destruct (IH (step + 1)%Z _ Hw1 ltac:(lia) ltac:(lia))
      as (Hw' & Ha' & Hn' & Hi').
    replace (step + Z.of_nat (S (length ticks)))%Z
      with (step + 1 + Z.of_nat (length ticks))%Z by lia.
    split; [exact Hw' |].
    split; [exact (eq_trans Ha' Ha1) |].
    split; [exact (eq_trans Hn' Hn1) | exact (eq_trans Hi' Hi1)].
Qed.

(** Ticks on a stopped session: the first clears the interval, the others
    find it cleared. *)
Lemma ticks_stopped id ticks : forall p step w,
  isRunning (app w) = false ->
  intervals (env w) !! id = Some (Simulation p step) ->
  (run (fires id ticks) w).1 =
  match ticks with
  | [] => w
  | _ :: _ => on_env (clearInterval id) w
  end.
Proof.
  intros p step w Hrun Hid. destruct ticks as [|[now random] ticks].
  - reflexivity.
  - cbn [fires map]. rewrite run_cons.
    rewrite (tick_stopped now random id p step w Hrun Hid). cbn [fst].
    assert (Hgone : intervals (env (on_env (clearInterval id) w)) !! id
                    = None) by apply lookup_delete_eq.
    revert Hgone. generalize (on_env (clearInterval id) w). clear.
    induction ticks as [|[now random] ticks IH]; intros w Hgone.
    + reflexivity.
    + cbn [map]. rewrite run_cons, fire_cleared by exact Hgone.
      apply IH. exact Hgone.
Qed.

(** *** What the random draws reach *)

(** The state without its log. *)
Definition erase_log (w : World) : World := on_dom (set_logContainer []) w.

Lemma erase_addLog now level message w :
  erase_log (addLog now level message w) = erase_log w.
Proof. reflexivity. Qed.

Lemma erase_on_stats f w :
  erase_log (on_dom (on_stats f) w) = on_dom (on_stats f) (erase_log w).
Proof. reflexivity. Qed.

Lemma erase_on_controls f w :
  erase_log (on_dom (on_controls f) w) = on_dom (on_controls f) (erase_log w).
Proof. reflexivity. Qed.

Lemma erase_on_env f w : erase_log (on_env f w) = on_env f (erase_log w).
Proof. reflexivity. Qed.

Lemma erase_showNotification message type w :
  erase_log (showNotification message type w) =
  showNotification message type (erase_log w).
Proof. reflexivity. Qed.

Lemma on_env_app f w : app (on_env f w) = app w.
Proof. reflexivity. Qed.

Lemma on_dom_app f w : app (on_dom f w) = app w.
Proof. reflexivity. Qed.

Lemma erase_log_app w w' : erase_log w = erase_log w' -> app w = app w'.
Proof. intros H. exact (f_equal app H). Qed.

Lemma erase_log_env w w' : erase_log w = erase_log w' -> env w = env w'.
Proof. intros H. exact (f_equal env H). Qed.

Lemma cleanupAfterRun_erase now w w' :
  erase_log w = erase_log w' ->
  erase_log (cleanupAfterRun now w) = erase_log (cleanupAfterRun now w').
Proof.
  destruct w as [[cfg running started timer ws] [f c s l n] e h],
    w' as [a' [f' c' s' l' n'] e' h'].
  unfold erase_log. fields. intros H. injection H as <- <- <- <- <- <- <-.
  unfold cleanupAfterRun, updateStatus, addLog. fields.
  destruct timer, ws; reflexivity.
Qed.

Lemma handleTaskComplete_erase now data w w' :
  erase_log w = erase_log w' ->
  erase_log (handleTaskComplete now data w) =
  erase_log (handleTaskComplete now data w').
Proof.
  intros H. unfold handleTaskComplete, switchTab.
  rewrite !erase_on_controls, !erase_showNotification.
  do 2 f_equal. apply cleanupAfterRun_erase.
  rewrite !erase_addLog. exact H.
Qed.

Create Rewrite HintDb erase.
#[local] Hint Rewrite erase_addLog erase_on_stats erase_on_controls
  erase_on_env erase_showNotification addLog_app on_env_app on_dom_app
  : erase.

(** A firing of an interval does the same to two states that differ in
    their logs only, whatever is drawn in each: the draw reaches nothing
    but the log. *)
Lemma fire_erase_log now id random random' w w' :
  erase_log w = erase_log w' ->
  erase_log (dispatch now (Fire id random) w).1 =
  erase_log (dispatch now (Fire id random') w').1.
Proof.
  intros H. pose proof (erase_log_app _ _ H) as Ha.
  pose proof (erase_log_env _ _ H) as He.
  cbv [dispatch]. rewrite He.
  destruct (intervals (env w') !! id) as [[|p step]|]; cbv [fst].
  - unfold timer_tick. rewrite Ha.
    destruct (startTime (app w')); [| exact H].
    destruct (z =? 0)%Z; [exact H |].
    rewrite !erase_on_stats, H. reflexivity.
  - unfold simulation_tick. rewrite Ha.
    destruct (isRunning (app w')); cbn [negb];
      [| rewrite !erase_on_env, H; reflexivity].
    destruct ((Z.rem step 3 =? 0)%Z && (p <? length phases)%nat);
      cbv beta iota zeta; rewrite !updateProgress_tick;
      destruct (Z.rem (step + 1) 2 =? 0)%Z;
      destruct (30 <=? step + 1)%Z;
      unfold updatePhase; autorewrite with erase;
      rewrite ?Ha;
      first [ apply handleTaskComplete_erase; autorewrite with erase
            | idtac ];
      rewrite H; reflexivity.
  - exact H.
Qed.

Lemma fires_erase_log id ticks : forall ticks' w w',
  map fst ticks' = map fst ticks ->
  erase_log w = erase_log w' ->
  erase_log (run (fires id ticks) w).1 =
  erase_log (run (fires id ticks') w').1.
Proof.
  induction ticks as [|[now random] ticks IH];
    intros [|[now' random'] ticks'] w w' Htimes H; try discriminate.
  - exact H.
  - cbn [map fst] in Htimes. injection Htimes as -> Htimes.
    cbn [fires map]. rewrite !run_cons.
    apply IH; [exact Htimes | apply fire_erase_log; exact H].
Qed.

Lemma fires_app id ticks1 ticks2 :
  fires id (ticks1 ++ ticks2) = fires id ticks1 ++ fires id ticks2.
Proof. apply map_app. Qed.

Lemma completions_unchanged w w' :
  notifications (dom w') = notifications (dom w) ->
  completions w' = completions w.
Proof. unfold completions. intros ->. reflexivity. Qed.

Lemma completions_one_more w w' :
  notifications (dom w') = notifications (dom w) ++ [completed] ->
  completions w' = completions w + 1.
Proof.
  unfold completions. intros ->. rewrite filter_app, length_app. reflexivity.
Qed.

Lemma runSimulation_ticking w :
  isRunning (app w) = true ->
  ticking (runSimulation w) (next_interval (env w)) 0.
Proof.
  intros Hrun. split; [exact Hrun |]. exists 0. cbn. apply lookup_insert_eq.
Qed.

(** C7. The simulation, left to run on a running session: for any times
    and any random draws of its ticks, none of the first 29 ticks
    completes the run (the session still runs, the simulation counts the
    ticks made, no completion has been shown); the thirtieth hands
    [handleTaskComplete] an object with [success] true and [time_taken]
    the whole seconds from [startTime] to the time of that tick, exactly
    once: one completion more is shown, the log ends with its four lines,
    the session no longer runs and the interval is cleared, so that it
    never fires again.  The run is a function of the times and the draws,
    so the same draws give the same run; and the draws reach nothing but
    the log: with other draws at the same times the final state is the
    same but for the log. *)
Theorem simulation_completes_after_30_ticks (w0 : World)
  (ticks : list (Z * Q)) (now : Z) (random : Q) :
  isRunning (app w0) = true ->
  length ticks = 29 ->
  let id := next_interval (env w0) in
  let w := runSimulation w0 in
  let w30 := (run (fires id (ticks ++ [(now, random)])) w).1 in
  (forall k, k <= 29 ->
     let wk := (run (fires id (take k ticks)) w).1 in
     ticking wk id (Z.of_nat k) /\ completions wk = completions w0) /\
  completions w30 = completions w0 + 1 /\
  prop (completion now w0) "success" = VBool true /\
  prop (completion now w0) "time_taken" =
    num ((now - default 0%Z (startTime (app w0))) / 1000)%Z /\
  (exists older,
     logContainer (dom w30) = older ++ completion_log now (completion now w0)) /\
  isRunning (app w30) = false /\
  intervals (env w30) !! id = None /\
  (forall later random', dispatch later (Fire id random') w30 = (w30, None)) /\
  (forall ticks' random',
     map fst ticks' = map fst ticks ->
     erase_log (run (fires id (ticks' ++ [(now, random')])) w).1 =
     erase_log w30).
Proof.
  intros Hrun Hlen id w w30.
  pose proof (runSimulation_ticking w0 Hrun) as Hw. fold id w in Hw.
  assert (Hprefix : forall k, k <= 29 ->
            let wk := (run (fires id (take k ticks)) w).1 in
            ticking wk id (Z.of_nat k) /\ app wk = app w0 /\
            notifications (dom wk) = notifications (dom w0)).
  { intros k Hk wk.
    destruct (ticks_early id (take k ticks) 0 w Hw ltac:(lia))
      as (Ht & Ha & Hn & _).
    { rewrite length_take. lia. }
    rewrite length_take, Hlen, Nat.min_l in Ht by exact Hk.
    split; [exact Ht | split; [exact Ha | exact Hn]]. }
  split.
  { intros k Hk wk. destruct (Hprefix k Hk) as (Ht & _ & Hn).
    split; [exact Ht | apply completions_unchanged; exact Hn]. }
  destruct (Hprefix 29 (le_n _)) as (Ht29 & Ha29 & Hn29).
  rewrite take_ge in Ht29, Ha29, Hn29 by lia.
  assert (Hw30 : w30 = (dispatch now (Fire id random)
                          (run (fires id ticks) w).1).1).
  { subst w30. rewrite fires_app, run_app. cbn [fires map].
    rewrite run_cons, run_nil. reflexivity. }
  destruct (tick_last now random id _ Ht29) as (Hstop & Hn30 & Hgone & Hlog).
  rewrite <- Hw30 in Hstop, Hn30, Hgone, Hlog.
  split; [apply completions_one_more; rewrite Hn30, Hn29; reflexivity |].
  split; [reflexivity |]. split; [reflexivity |].
  split.
  { destruct Hlog as [older Hlog]. exists older. rewrite Hlog.
    unfold completion. rewrite Ha29. reflexivity. }
  split; [exact Hstop |]. split; [exact Hgone |].
  split; [intros later random'; apply fire_cleared; exact Hgone |].
  intros ticks' random' Htimes. subst w30.
  apply fires_erase_log; [| reflexivity].
  rewrite !map_app, Htimes. reflexivity.
Qed.

Lemma simulation_completes_after_30_ticks_witness :
  completions
    (run (fires 2 (repeat (2000%Z, 0%Q) 29 ++ [(31000%Z, 0%Q)]))
       (runSimulation started_world)).1
  = completions started_world + 1.
Proof.
  exact (proj1 (proj2 (simulation_completes_after_30_ticks started_world
                         (repeat (2000%Z, 0%Q) 29) 31000 0 eq_refl eq_refl))).
Defined.

(** ** Start followed by stop *)

(** The answers to the start request that send [startAgent] to its
    [catch], and so to the simulation. *)
Definition falls_back (r : settlement) : bool :=
  match r with
  | Rejected _ => true
  | Response ok _ => negb ok
  | Body _ => false
  end.

(** An accepted start: the flag is set, the clock is interval
    [next_interval], and the call waits for the answer of the backend. *)
Lemma startAgent_accepted now w :
  config_errors (form (dom w)) = [] -> isRunning (app w) = false ->
  let w' := startAgent now w in
  isRunning (app w') = true /\
  timerInterval (app w') = Some (next_interval (env w)) /\
  notifications (dom w') = notifications (dom w) /\
  intervals (env w') =
    <[next_interval (env w) := ElapsedTimer]> (intervals (env w)) /\
  next_interval (env w') = Pos.succ (next_interval (env w)) /\
  inflight (env w') = <[next_call (env w) := StartFetch]> (inflight (env w)) /\
  next_call (env w') = S (next_call (env w)).
Proof.
  intros Hvalid Hidle. cbv zeta. unfold startAgent.
  rewrite validateConfig_valid by exact Hvalid. cbv iota beta.
  cbn [negb]. cbv iota. rewrite Hidle. repeat split.
Qed.

Lemma stopAgent_waits now w :
  isRunning (app w) = true ->
  let w' := stopAgent now w in
  app w' = app w /\ notifications (dom w') = notifications (dom w) /\
  intervals (env w') = intervals (env w) /\
  next_interval (env w') = next_interval (env w) /\
  inflight (env w') = <[next_call (env w) := StopFetch]> (inflight (env w)).
Proof.
  intros Hrun. cbv zeta. rewrite stopAgent_running by exact Hrun.
  repeat split.
Qed.

(** The start request fails: the simulation is set up, whether or not a
    session still runs. *)
Lemma settle_start_falls_back now c r w :
  inflight (env w) !! c = Some StartFetch -> falls_back r = true ->
  let w' := (dispatch now (Settle c r) w).1 in
  app w' = app w /\ notifications (dom w') = notifications (dom w) /\
  intervals (env w') =
    <[next_interval (env w) := Simulation 0 0]> (intervals (env w)) /\
  inflight (env w') = delete c (inflight (env w)).
Proof.
  intros Hc Hr. cbv zeta. cbv [dispatch]. rewrite Hc. cbv [fst resume].
  destruct r as [e | [|] status | data]; try discriminate; repeat split.
Qed.

(** The stop request settles: the cleanup runs. *)
Lemma settle_stop now c r w :
  inflight (env w) !! c = Some StopFetch ->
  let w' := (dispatch now (Settle c r) w).1 in
  isRunning (app w') = false /\
  notifications (dom w') = notifications (dom w) /\
  intervals (env w') =
    match timerInterval (app w) with
    | Some id => delete id (intervals (env w))
    | None => intervals (env w)
    end /\
  inflight (env w') = delete c (inflight (env w)) /\
  next_interval (env w') = next_interval (env w).
Proof.
  intros Hc. cbv zeta. cbv [dispatch]. rewrite Hc. cbv [fst resume].
  unfold stopAgent_fetched.
  rewrite cleanupAfterRun_app, cleanupAfterRun_notifications,
    cleanupAfterRun_intervals, cleanupAfterRun_inflight,
    cleanupAfterRun_next_interval.
  destruct r; repeat split.
Qed.

(** Firings of any intervals, in order: the time, the interval and the
    draw of each. *)
Definition firings (l : list (Z * positive * Q)) : list (Z * event) :=
  map (fun x => (x.1.1, Fire x.1.2 x.2)) l.

(** How often interval [id] fires in [l]. *)
Definition ticks_of (id : positive) (l : list (Z * positive * Q)) : nat :=
  length (List.filter (fun x => Pos.eqb x.1.2 id) l).

Lemma ticks_of_cons id now id0 random l :
  ticks_of id ((now, id0, random) :: l) =
  (if Pos.eqb id0 id then 1 else 0) + ticks_of id l.
Proof.
  unfold ticks_of. cbn [List.filter fst snd].
  destruct (Pos.eqb id0 id); reflexivity.
Qed.

(** Interval [id] fires in [l]. *)
Definition fired (id : positive) (l : list (Z * positive * Q)) : Prop :=
  exists now random, In (now, id, random) l.

(** No simulation is live: none that an earlier session left behind. *)
Definition no_simulation (w : World) : Prop :=
  forall id p step, intervals (env w) !! id <> Some (Simulation p step).

(** The only simulation that is live is [id], and it has made at most
    [bound] ticks. *)
Definition only_simulation (w : World) (id : positive) (bound : Z) : Prop :=
  forall id' p step,
    intervals (env w) !! id' = Some (Simulation p step) ->
    id' = id /\ (0 <= step <= bound)%Z.

Lemma timer_tick_frame now w :
  app (timer_tick now w) = app w /\ env (timer_tick now w) = env w /\
  notifications (dom (timer_tick now w)) = notifications (dom w).
Proof.
  unfold timer_tick. destruct (startTime (app w)); [| repeat split].
  destruct (z =? 0)%Z; repeat split.
Qed.

(** A tick before the thirtieth, on the whole table of intervals. *)
Lemma tick_early_intervals now random id p step w :
  isRunning (app w) = true ->
  intervals (env w) !! id = Some (Simulation p step) ->
  (0 <= step < 29)%Z ->
  let w' := (dispatch now (Fire id random) w).1 in
  (exists p', intervals (env w') =
     alter (fun _ => Simulation p' (step + 1)) id (intervals (env w))) /\
  app w' = app w /\
  notifications (dom w') = notifications (dom w) /\
  inflight (env w') = inflight (env w).
Proof.
  intros Hrun Hid Hstep. cbv zeta. cbv [dispatch]. rewrite Hid.
  cbv [fst]. unfold simulation_tick. rewrite Hrun. cbn [negb].
  assert (Hlt : (30 <=? step + 1)%Z = false) by (apply Z.leb_gt; lia).
  rewrite Hlt.
  destruct ((Z.rem step 3 =? 0)%Z && (p <? length phases)%nat);
    destruct (Z.rem (step + 1) 2 =? 0)%Z.
  all: split; [eexists; reflexivity | repeat split].
Qed.

(** While no simulation is live, the intervals that fire reach nothing
    but the statistics. *)
Lemma firings_no_simulation l : forall w,
  no_simulation w ->
  let w' := (run (firings l) w).1 in
  app w' = app w /\ env w' = env w /\
  notifications (dom w') = notifications (dom w).
Proof.
  induction l as [|[[now id] random] l IH]; intros w Hw.
  - cbn [firings map]. rewrite run_nil. repeat split.
  - cbn [firings map fst snd]. rewrite run_cons. fold (firings l).
    assert (H1 : let w1 := (dispatch now (Fire id random) w).1 in
                 app w1 = app w /\ env w1 = env w /\
                 notifications (dom w1) = notifications (dom w)).
    { cbv zeta. cbv [dispatch].
      destruct (intervals (env w) !! id) as [[|p step]|] eqn:Hid; cbv [fst].
      - apply timer_tick_frame.
      - destruct (Hw _ _ _ Hid).
      - repeat split. }
    destruct H1 as (Ha1 & He1 & Hn1).
    set (w1 := (dispatch now (Fire id random) w).1) in *.
    assert (Hw1 : no_simulation w1).
    { intros id' p step. rewrite He1. apply Hw. }
    destruct (IH w1 Hw1) as (Ha & He & Hn).
    split; [exact (eq_trans Ha Ha1) |].
    split; [exact (eq_trans He He1) | exact (eq_trans Hn Hn1)].
Qed.

(** While the session runs and the one simulation stays below its
    thirtieth tick, the intervals that fire show no completion, leave the
    waiting calls alone, and leave the clocks clocks. *)
Lemma firings_running id l : forall bound w,
  isRunning (app w) = true ->
  only_simulation w id bound ->
  (0 <= bound)%Z ->
  (bound + Z.of_nat (ticks_of id l) <= 29)%Z ->
  let w' := (run (firings l) w).1 in
  app w' = app w /\
  notifications (dom w') = notifications (dom w) /\
  inflight (env w') = inflight (env w) /\
  (forall id', intervals (env w') !! id' = Some ElapsedTimer <->
               intervals (env w) !! id' = Some ElapsedTimer).
Proof.
  induction l as [|[[now id0] random] l IH]; intros bound w Hrun Hw Hpos Hlen.
  - cbn [firings map]. rewrite run_nil. repeat split; auto.
  - cbn [firings map fst snd]. rewrite run_cons. fold (firings l).
    rewrite ticks_of_cons in Hlen.
    set (w1 := (dispatch now (Fire id0 random) w).1).
    assert (H1 : app w1 = app w /\
                 notifications (dom w1) = notifications (dom w) /\
                 inflight (env w1) = inflight (env w) /\
                 (forall id', intervals (env w1) !! id' = Some ElapsedTimer <->
                              intervals (env w) !! id' = Some ElapsedTimer) /\
                 only_simulation w1 id
                   (bound + (if Pos.eqb id0 id then 1 else 0))).
    { destruct (intervals (env w) !! id0) as [[|p step]|] eqn:Hid.
      - assert (Hw1 : w1 = timer_tick now w).
        { subst w1. cbv [dispatch]. rewrite Hid. reflexivity. }
        destruct (timer_tick_frame now w) as (Ha & He & Hn).
        rewrite Hw1. split; [exact Ha |]. split; [exact Hn |].
        split; [rewrite He; reflexivity |].
        split; [intros id'; rewrite He; reflexivity |].
        intros id' q st. rewrite He. intros H.
        destruct (Hw _ _ _ H) as [? ?].
        split; [assumption | destruct (Pos.eqb id0 id); lia].
      - destruct (Hw _ _ _ Hid) as [-> Hstep].
        rewrite Pos.eqb_refl in Hlen |- *.
        destruct (tick_early_intervals now random id p step w Hrun Hid
                    ltac:(lia)) as ([p' Hiv] & Ha & Hn & Hfl).
        fold w1 in Hiv, Ha, Hn, Hfl.
        split; [exact Ha |]. split; [exact Hn |]. split; [exact Hfl |].
        split.
        + intros id'. rewrite Hiv.
          destruct (decide (id' = id)) as [-> | Hne].
          * rewrite lookup_alter_eq, Hid. cbn. split; discriminate.
          * rewrite lookup_alter_ne by congruence. reflexivity.
        + intros id' q st. rewrite Hiv.
          destruct (decide (id' = id)) as [-> | Hne].
          * rewrite lookup_alter_eq, Hid. cbn. intros [= <- <-].
            split; [reflexivity | lia].
          * rewrite lookup_alter_ne by congruence. intros H.
            destruct (Hw _ _ _ H) as [? _]. contradiction.
      - assert (Hw1 : w1 = w).
        { subst w1. cbv [dispatch]. rewrite Hid. reflexivity. }
        rewrite Hw1. do 4 (split; [reflexivity |]).
        intros id' q st H. destruct (Hw _ _ _ H) as [? ?].
        split; [assumption | destruct (Pos.eqb id0 id); lia]. }
    destruct H1 as (Ha1 & Hn1 & Hfl1 & Hclock1 & Hw1).
    assert (Hrun1 : isRunning (app w1) = true) by (rewrite Ha1; exact Hrun).
    destruct (IH _ w1 Hrun1 Hw1) as (Ha & Hn & Hfl & Hclock).
    { destruct (Pos.eqb id0 id); lia. }
    { revert Hlen. destruct (Pos.eqb id0 id); lia. }
    split; [exact (eq_trans Ha Ha1) |].
    split; [exact (eq_trans Hn Hn1) |].
    split; [exact (eq_trans Hfl Hfl1) |].
    intros id'. rewrite Hclock. apply Hclock1.
Qed.

(** Once the session has stopped, the intervals that fire show no
    completion and restart nothing; a simulation that fires is cleared
    and stays so. *)
Lemma firings_stopped l : forall w,
  isRunning (app w) = false ->
  let w' := (run (firings l) w).1 in
  isRunning (app w') = false /\
  notifications (dom w') = notifications (dom w) /\
  intervals (env w') ⊆ intervals (env w) /\
  (forall id, fired id l ->
     intervals (env w) !! id <> Some ElapsedTimer ->
     intervals (env w') !! id = None).
Proof.
  induction l as [|[[now id0] random] l IH]; intros w Hrun.
  - cbn [firings map]. rewrite run_nil.
    split; [exact Hrun |]. split; [reflexivity |]. split; [reflexivity |].
    intros id (? & ? & []).
  - cbn [firings map fst snd]. rewrite run_cons. fold (firings l).
    set (w1 := (dispatch now (Fire id0 random) w).1).
    assert (H1 : isRunning (app w1) = false /\
                 notifications (dom w1) = notifications (dom w) /\
                 intervals (env w1) ⊆ intervals (env w) /\
                 (intervals (env w) !! id0 <> Some ElapsedTimer ->
                  intervals (env w1) !! id0 = None)).
    { destruct (intervals (env w) !! id0) as [[|p step]|] eqn:Hid.
      - assert (Hw1 : w1 = timer_tick now w).
        { subst w1. cbv [dispatch]. rewrite Hid. reflexivity. }
        destruct (timer_tick_frame now w) as (Ha & He & Hn).
        rewrite Hw1, Ha, He, Hn.
        split; [exact Hrun |]. split; [reflexivity |].
        split; [reflexivity |]. intros H. contradiction.
      - assert (Hw1 : w1 = on_env (clearInterval id0) w).
        { subst w1. rewrite (tick_stopped now random id0 p step w Hrun Hid).
          reflexivity. }
        rewrite Hw1. split; [exact Hrun |]. split; [reflexivity |].
        split; [apply delete_subseteq |]. intros _. apply lookup_delete_eq.
      - assert (Hw1 : w1 = w).
        { subst w1. cbv [dispatch]. rewrite Hid. reflexivity. }
        rewrite Hw1. split; [exact Hrun |]. split; [reflexivity |].
        split; [reflexivity |]. intros _. exact Hid. }
    destruct H1 as (Hrun1 & Hn1 & Hsub1 & Hgone1).
    destruct (IH w1 Hrun1) as (Hrun' & Hn & Hsub & Hgone).
    split; [exact Hrun' |]. split; [exact (eq_trans Hn Hn1) |].
    split; [etrans; eassumption |].
    intros id (t & r & [Heq | Hin]) Hclock.
    + injection Heq as -> -> ->.
      specialize (Hgone1 Hclock).
      destruct (intervals (env (run (firings l) w1).1) !! id) eqn:Hlook;
        [| reflexivity].
      pose proof (lookup_weaken _ _ _ _ Hlook Hsub) as Hlook1.
      congruence.
    + apply Hgone; [exists t, r; exact Hin |].
      intros Hlook. apply Hclock.
      exact (lookup_weaken _ _ _ _ Hlook Hsub1).
Qed.

(** C8, as the code has it.  Take any valid form and an idle controller
    on which no simulation of an earlier session is still live; start,
    then stop at once, and let the start request fail, so that the
    simulation is the source of events.  Besides the two answers, any
    intervals may fire at any time: [f0] before the first answer, [f1]
    between the two, [f2] after both.  If the stop request settles
    first, or settles before the simulation has made thirty ticks, then
    no completion is ever shown: the cleanup has cleared [isRunning], and
    the first tick of the simulation after it clears the interval without
    a word.  Nothing is added to the history either. *)
Theorem stop_suppresses_completion (w0 : World) (t1 t2 t3 t4 : Z)
  (r_start r_stop : settlement) (f0 f1 f2 : list (Z * positive * Q)) :
  config_errors (form (dom w0)) = [] ->
  isRunning (app w0) = false ->
  no_simulation w0 ->
  falls_back r_start = true ->
  let c := next_call (env w0) in
  let id := Pos.succ (next_interval (env w0)) in
  let start_first :=
    (run ([(t1, Click_startBtn); (t2, Click_stopBtn)] ++ firings f0
          ++ [(t3, Settle c r_start)] ++ firings f1
          ++ [(t4, Settle (S c) r_stop)] ++ firings f2) w0).1 in
  let stop_first :=
    (run ([(t1, Click_startBtn); (t2, Click_stopBtn)] ++ firings f0
          ++ [(t3, Settle (S c) r_stop)] ++ firings f1
          ++ [(t4, Settle c r_start)] ++ firings f2) w0).1 in
  (ticks_of id f1 < 30 ->
   completions start_first = completions w0 /\
   isRunning (app start_first) = false /\
   (fired id f2 -> intervals (env start_first) !! id = None)) /\
  (completions stop_first = completions w0 /\
   isRunning (app stop_first) = false /\
   (fired id f2 -> intervals (env stop_first) !! id = None)) /\
  taskHistory start_first = taskHistory w0 /\
  taskHistory stop_first = taskHistory w0.
Proof.
  intros Hvalid Hidle Hnosim Hfall c id start_first stop_first.
  destruct (startAgent_accepted t1 w0 Hvalid Hidle)
    as (Hrun1 & Htimer1 & Hn1 & Hiv1 & Hnext1 & Hfl1 & Hcall1).
  destruct (stopAgent_waits t2 (startAgent t1 w0) Hrun1)
    as (Ha2 & Hn2 & Hiv2 & Hnext2 & Hfl2).
  set (w2 := stopAgent t2 (startAgent t1 w0)) in *.
  rewrite Hcall1, Hfl1 in Hfl2. fold c in Hfl2.
  assert (Hnosim2 : no_simulation w2).
  { intros id' p step. rewrite Hiv2, Hiv1.
    destruct (decide (id' = next_interval (env w0))) as [-> | Hne'].
    - rewrite lookup_insert_eq. discriminate.
    - rewrite lookup_insert_ne by congruence. apply Hnosim. }
  destruct (firings_no_simulation f0 w2 Hnosim2) as (Ha & He & Hn).
  set (w := (run (firings f0) w2).1) in *.
  assert (Hstart : inflight (env w) !! c = Some StartFetch).
  { rewrite He, Hfl2, lookup_insert_ne by lia. apply lookup_insert_eq. }
  assert (Hstop : inflight (env w) !! S c = Some StopFetch).
  { rewrite He, Hfl2. apply lookup_insert_eq. }
  assert (Hnext : next_interval (env w) = id).
  { rewrite He, Hnext2. exact Hnext1. }
  assert (Htimer : timerInterval (app w) = Some (next_interval (env w0))).
  { rewrite Ha, Ha2. exact Htimer1. }
  assert (Hnosim' : no_simulation w).
  { intros id' p step. rewrite He. apply Hnosim2. }
  assert (Hnotes : notifications (dom w) = notifications (dom w0)).
  { rewrite Hn, Hn2. exact Hn1. }
  assert (Hne : next_interval (env w0) <> id) by (subst id; lia).
  split; [| split; [| split; apply run_taskHistory]].
  - (* the start request settles first *)
    intros Hlen. subst start_first. cbn [Datatypes.app].
    rewrite !run_cons, run_app.
    change (dispatch t1 Click_startBtn w0).1 with (startAgent t1 w0).
    change (dispatch t2 Click_stopBtn (startAgent t1 w0)).1 with w2.
    fold w.
    destruct (settle_start_falls_back t3 c r_start w Hstart Hfall)
      as (Ha3 & Hn3 & Hiv3 & Hfl3).
    rewrite run_cons.
    set (w3 := (dispatch t3 (Settle c r_start) w).1) in *.
    rewrite Hnext in Hiv3.
    assert (Hrun3 : isRunning (app w3) = true).
    { rewrite Ha3, Ha, Ha2. exact Hrun1. }
    assert (Honly3 : only_simulation w3 id 0).
    { intros id' p step. rewrite Hiv3.
      destruct (decide (id' = id)) as [-> | Hne'].
      - rewrite lookup_insert_eq. intros [= <- <-].
        split; [reflexivity | lia].
      - rewrite lookup_insert_ne by congruence. intros H.
        destruct (Hnosim' _ _ _ H). }
    rewrite run_app.
    destruct (firings_running id f1 0 w3 Hrun3 Honly3 ltac:(lia) ltac:(lia))
      as (Ha4 & Hn4 & Hfl4 & Hclock4).
    set (w4 := (run (firings f1) w3).1) in *.
    rewrite run_cons.
    assert (Hstop4 : inflight (env w4) !! S c = Some StopFetch).
    { rewrite Hfl4, Hfl3, lookup_delete_ne by lia. exact Hstop. }
    destruct (settle_stop t4 (S c) r_stop w4 Hstop4)
      as (Hrun5 & Hn5 & Hiv5 & _ & _).
    set (w5 := (dispatch t4 (Settle (S c) r_stop) w4).1) in *.
    rewrite Ha4, Ha3, Htimer in Hiv5.
    destruct (firings_stopped f2 w5 Hrun5) as (Hrun6 & Hn6 & _ & Hgone6).
    split.
    { apply completions_unchanged.
      rewrite Hn6, Hn5, Hn4, Hn3. exact Hnotes. }
    split; [exact Hrun6 |].
    intros Hfired. apply Hgone6; [exact Hfired |].
    rewrite Hiv5, lookup_delete_ne by exact Hne. intros Hclock.
    apply Hclock4 in Hclock. rewrite Hiv3, lookup_insert_eq in Hclock.
    discriminate.
  - (* the stop request settles first *)
    subst stop_first. cbn [Datatypes.app].
    rewrite !run_cons, run_app.
    change (dispatch t1 Click_startBtn w0).1 with (startAgent t1 w0).
    change (dispatch t2 Click_stopBtn (startAgent t1 w0)).1 with w2.
    fold w.
    destruct (settle_stop t3 (S c) r_stop w Hstop)
      as (Hrun3 & Hn3 & Hiv3 & Hfl3 & Hnext3).
    rewrite run_cons.
    set (w3 := (dispatch t3 (Settle (S c) r_stop) w).1) in *.
    rewrite Htimer in Hiv3.
    assert (Hnosim3 : no_simulation w3).
    { intros id' p step H. rewrite Hiv3 in H.
      apply lookup_delete_Some in H as [_ H]. exact (Hnosim' _ _ _ H). }
    rewrite run_app.
    destruct (firings_no_simulation f1 w3 Hnosim3) as (Ha4 & He4 & Hn4).
    set (w4 := (run (firings f1) w3).1) in *.
    rewrite run_cons.
    assert (Hstart4 : inflight (env w4) !! c = Some StartFetch).
    { rewrite He4, Hfl3, lookup_delete_ne by lia. exact Hstart. }
    destruct (settle_start_falls_back t4 c r_start w4 Hstart4 Hfall)
      as (Ha5 & Hn5 & Hiv5 & _).
    set (w5 := (dispatch t4 (Settle c r_start) w4).1) in *.
    rewrite He4, Hnext3, Hnext in Hiv5.
    assert (Hrun5 : isRunning (app w5) = false).
    { rewrite Ha5, Ha4. exact Hrun3. }
    destruct (firings_stopped f2 w5 Hrun5) as (Hrun6 & Hn6 & _ & Hgone6).
    split.
    { apply completions_unchanged.
      rewrite Hn6, Hn5, Hn4, Hn3. exact Hnotes. }
    split; [exact Hrun6 |].
    intros Hfired. apply Hgone6; [exact Hfired |].
    rewrite Hiv5, lookup_insert_eq. discriminate.
Qed.

Lemma stop_suppresses_completion_witness :
  completions
    (run ([(1000%Z, Click_startBtn); (1001%Z, Click_stopBtn)]
          ++ firings [(1002%Z, 1%positive, 0%Q)]
          ++ [(1010%Z, Settle 0 network_error)]
          ++ firings [(2000%Z, 2%positive, 0%Q); (2001%Z, 1%positive, 0%Q);
                      (3000%Z, 2%positive, 0%Q)]
          ++ [(3500%Z, Settle 1 network_error)]
          ++ firings [(4000%Z, 2%positive, 0%Q)]) idle_world).1
  = completions idle_world.
Proof.
  refine (proj1 (proj1 (stop_suppresses_completion idle_world
                          1000 1001 1010 3500 network_error network_error
                          [(1002%Z, 1%positive, 0%Q)]
                          [(2000%Z, 2%positive, 0%Q);
                           (2001%Z, 1%positive, 0%Q);
                           (3000%Z, 2%positive, 0%Q)]
                          [(4000%Z, 2%positive, 0%Q)]
                          eq_refl eq_refl _ eq_refl) _)).
  - intros id p step. cbn. rewrite lookup_empty. discriminate.
  - vm_compute. lia.
Defined.

(** Thirty ticks, one a second, from time 2000 on. *)
Definition thirty_ticks : list (Z * Q) :=
  map (fun k => ((1000 + 1000 * Z.of_nat k)%Z, 1 # 2)) (seq 1 30).

(** C8, refuted as stated: with a valid form, start, stop at once; the
    start request fails, so the simulation runs, and the stop request is
    not answered for thirty seconds.  The flag is still set all that time,
    the simulation makes its thirty ticks and the completion is shown,
    with the stop still waiting. *)
Lemma completion_despite_stop_counterexample :
  let w := (run ([(1000%Z, Click_startBtn); (1001%Z, Click_stopBtn);
                  (1010%Z, Settle 0 network_error)]
                 ++ fires 2 thirty_ticks) idle_world).1 in
  config_errors (form (dom idle_world)) = [] /\
  isRunning (app idle_world) = false /\
  completions idle_world = 0 /\
  completions w = 1 /\
  inflight (env w) !! 1 = Some StopFetch.
Proof. cbv zeta. repeat split; vm_compute; reflexivity. Qed.

(** A session whose simulation was stopped after twenty-nine ticks: the
    interval is still live, one tick from its end. *)
Definition stopped_on_the_brink : World :=
  (run ([(1000%Z, Click_startBtn); (1010%Z, Settle 0 network_error)]
        ++ fires 2 (take 29 thirty_ticks)
        ++ [(30100%Z, Click_stopBtn); (30110%Z, Settle 1 network_error)])
     idle_world).1.

(** Why C8 asks that no simulation be left over.  On the state above,
    start, stop at once, and let the old simulation fire once: it finds
    the new session running and completes it, before either request has
    settled and before the new simulation exists. *)
Lemma leftover_completes_new_session :
  let w0 := stopped_on_the_brink in
  let w := (run ([(40000%Z, Click_startBtn); (40001%Z, Click_stopBtn)]
                 ++ firings [(40500%Z, 2%positive, 0%Q)]
                 ++ [(40600%Z, Settle 2 network_error)]
                 ++ [(40700%Z, Settle 3 network_error)]) w0).1 in
  config_errors (form (dom w0)) = [] /\
  isRunning (app w0) = false /\
  (exists p, intervals (env w0) !! 2%positive = Some (Simulation p 29)) /\
  completions w = completions w0 + 1 /\
  isRunning (app w) = false.
Proof.
  cbv zeta. split; [vm_compute; reflexivity |].
  split; [vm_compute; reflexivity |].
  split; [eexists; vm_compute; reflexivity |].
  split; vm_compute; reflexivity.
Qed.

(** * Further properties of the controller *)

(** ** The log *)

Lemma addLog_latest now level message w :
  let old := logContainer (dom w) in
  let entry := {| log_time := now; log_level := level;
                  log_message := message |} in
  logContainer (dom (addLog now level message w)) =
    drop (length old - 99) old ++ [entry] /\
  length (logContainer (dom (addLog now level message w))) =
    Nat.min (S (length old)) 100.
Proof.
  cbv zeta. rewrite addLog_unfold.
  cbn [dom logContainer on_dom set_logContainer]. unfold last100.
  set (old := logContainer (dom w)).
  set (entry := {| log_time := now; log_level := level;
                   log_message := message |}).
  assert (Hdrop : drop (length (old ++ [entry]) - 100) (old ++ [entry])
                  = drop (length old - 99) old ++ [entry]).
  { rewrite length_app. cbn [length].
    replace (length old + 1 - 100) with (length old - 99) by lia.
    apply drop_app_le. lia. }
  rewrite Hdrop. split; [reflexivity |].
  rewrite length_app, length_drop. cbn [length]. lia.
Qed.

(** X1. What [addLog] keeps: the new entry comes last, before it come the
    latest 99 of the entries there were (all of them if there were fewer),
    in their order, and the log never holds more than 100 entries after
    it, however many it held before. *)
Theorem addLog_keeps_latest (now : Z) (level : value) (message : text)
  (w : World) :
  let log' := logContainer (dom (addLog now level message w)) in
  let old := logContainer (dom w) in
  let entry := {| log_time := now; log_level := level;
                  log_message := message |} in
  log' = drop (length old - 99) old ++ [entry] /\
  (length old < 100 -> log' = old ++ [entry]) /\
  length log' = Nat.min (S (length old)) 100 /\
  length log' <= 100.
Proof.
  cbv zeta. destruct (addLog_latest now level message w) as [Hlog Hlen].
  split; [exact Hlog |]. split; [| split; [exact Hlen | lia]].
  intros Hfew. rewrite Hlog.
  replace (length (logContainer (dom w)) - 99) with 0 by lia.
  reflexivity.
Qed.

Lemma addLog_keeps_latest_witness :
  logContainer (dom (addLog 9000 (VStr "info") [Lit "hello"] started_world)) =
  logContainer (dom started_world) ++
  [{| log_time := 9000; log_level := VStr "info";
      log_message := [Lit "hello"] |}].
Proof.
  apply (proj1 (proj2 (addLog_keeps_latest 9000 (VStr "info") [Lit "hello"]
                         started_world))).
  vm_compute. lia.
Defined.

(** The log holds at most 100 entries. *)
Definition log_bounded (w : World) : Prop :=
  length (logContainer (dom w)) <= 100.

Lemma addLog_bounded now level message w :
  log_bounded (addLog now level message w).
Proof.
  unfold log_bounded.
  rewrite (proj2 (addLog_latest now level message w)). lia.
Qed.

Lemma cleanupAfterRun_bounded now w : log_bounded (cleanupAfterRun now w).
Proof.
  unfold log_bounded. rewrite cleanupAfterRun_log.
  exact (addLog_bounded now (VStr "info") [Lit "Agent stopped"] w).
Qed.

Lemma handleTaskComplete_bounded now data w :
  log_bounded (handleTaskComplete now data w).
Proof.
  unfold handleTaskComplete, switchTab, showNotification, log_bounded.
  cbn [dom logContainer on_dom on_controls set_notifications].
  apply cleanupAfterRun_bounded.
Qed.

Lemma bounded_on_env f w : log_bounded w -> log_bounded (on_env f w).
Proof. intros H. exact H. Qed.

Lemma bounded_on_app f w : log_bounded w -> log_bounded (on_app f w).
Proof. intros H. exact H. Qed.

Lemma bounded_on_stats f w :
  log_bounded w -> log_bounded (on_dom (on_stats f) w).
Proof. intros H. exact H. Qed.

Lemma bounded_on_controls f w :
  log_bounded w -> log_bounded (on_dom (on_controls f) w).
Proof. intros H. exact H. Qed.

Lemma bounded_showNotification message type w :
  log_bounded w -> log_bounded (showNotification message type w).
Proof. intros H. exact H. Qed.

Lemma bounded_startTimer w : log_bounded w -> log_bounded (startTimer w).
Proof. intros H. exact H. Qed.

Lemma bounded_runSimulation w :
  log_bounded w -> log_bounded (runSimulation w).
Proof. intros H. exact H. Qed.

(** Walks down a chain of updates to the first one that writes the log. *)
Ltac bounded :=
  lazymatch goal with
  | |- log_bounded (handleTaskComplete _ _ _) =>
      apply handleTaskComplete_bounded
  | |- log_bounded (cleanupAfterRun _ _) => apply cleanupAfterRun_bounded
  | |- log_bounded (addLog _ _ _ _) => apply addLog_bounded
  | |- log_bounded (clearLog _ _) => apply addLog_bounded
  | |- log_bounded (on_env _ _) => apply bounded_on_env; bounded
  | |- log_bounded (on_app _ _) => apply bounded_on_app; bounded
  | |- log_bounded (on_dom (on_stats _) _) =>
      apply bounded_on_stats; bounded
  | |- log_bounded (on_dom (on_controls _) _) =>
      apply bounded_on_controls; bounded
  | |- log_bounded (showNotification _ _ _) =>
      apply bounded_showNotification; bounded
  | |- log_bounded (updatePhase _ _) => apply bounded_on_stats; bounded
  | |- log_bounded (updateStatus _ _ _) =>
      apply bounded_on_controls; bounded
  | |- log_bounded (switchTab _ _) => apply bounded_on_controls; bounded
  | |- log_bounded (startTimer _) => apply bounded_startTimer; bounded
  | |- log_bounded (runSimulation _) => apply bounded_runSimulation; bounded
  | |- log_bounded (startAgent_catch _ _ _) =>
      apply bounded_runSimulation; apply addLog_bounded
  | |- _ => assumption
  end.

Lemma updateProgress_log data w :
  logContainer (dom (updateProgress data w)) = logContainer (dom w).
Proof.
  unfold updateProgress.
  destruct (defined (prop data "steps")), (defined (prop data "patches")),
    (defined (prop data "progress")); reflexivity.
Qed.

Lemma log_errors_bounded now errors : forall w,
  log_bounded w ->
  log_bounded (fold_left (fun w err => addLog now (VStr "error") [Lit err] w)
                 errors w).
Proof.
  induction errors as [|err errors IH]; intros w Hw; [exact Hw |].
  cbn [fold_left]. apply IH, addLog_bounded.
Qed.

Lemma startAgent_bounded now w :
  log_bounded w -> log_bounded (startAgent now w).
Proof.
  intros Hw. unfold startAgent, validateConfig.
  destruct (0 <? length (config_errors (gatherConfig w)))%nat.
  - cbn [negb]. change (log_bounded
      (fold_left (fun w err => addLog now (VStr "error") [Lit err] w)
         (config_errors (gatherConfig w)) w)).
    apply log_errors_bounded, Hw.
  - cbn [negb]. destruct (isRunning (app w)); cbv zeta; bounded.
Qed.

Lemma stopAgent_bounded now w :
  log_bounded w -> log_bounded (stopAgent now w).
Proof.
  intros Hw. unfold stopAgent.
  destruct (isRunning (app w)); cbn [negb]; cbv zeta; bounded.
Qed.

Lemma resume_bounded now c r w :
  log_bounded w -> log_bounded (resume now c r w).
Proof.
  intros Hw. destruct c; cbv [resume].
  - unfold startAgent_fetched. destruct r as [e | [|] status | data];
      cbn [negb]; bounded.
  - unfold startAgent_json, connectWebSocket.
    destruct r as [e | ok status | data]; [bounded | bounded |].
    destruct (nullish data); [bounded |]. cbv zeta.
    cbn [env addLog on_dom]. destruct (ws_refused (env w)).
    + apply addLog_bounded.
    + cbv [new_WebSocket]. cbv zeta. bounded.
  - apply cleanupAfterRun_bounded.
Qed.

Lemma simulation_tick_bounded now random id p step w :
  log_bounded w -> log_bounded (simulation_tick now random id p step w).
Proof.
  intros Hw. unfold simulation_tick.
  destruct (isRunning (app w)); cbn [negb]; [| exact Hw].
  destruct ((Z.rem step 3 =? 0)%Z && (p <? length phases)%nat);
    cbv beta iota zeta; rewrite !updateProgress_tick;
    destruct (Z.rem (step + 1) 2 =? 0)%Z;
    destruct (30 <=? step + 1)%Z; bounded.
Qed.

Lemma handleWebSocketMessage_bounded now data w :
  log_bounded w -> log_bounded (handleWebSocketMessage now data w).1.
Proof.
  intros Hw. unfold handleWebSocketMessage.
  destruct (nullish data); [exact Hw |].
  destruct (prop data "type") as [| | | | |type| |]; try exact Hw.
  destruct (String.eqb type "phase"); [cbn [fst]; bounded |].
  destruct (String.eqb type "log"); [cbn [fst]; bounded |].
  destruct (String.eqb type "progress").
  { unfold log_bounded. cbn [fst]. rewrite updateProgress_log. exact Hw. }
  destruct (String.eqb type "complete"); [cbn [fst]; bounded |].
  destruct (String.eqb type "error"); cbn [fst]; bounded.
Qed.

Lemma dispatch_bounded now ev w :
  log_bounded w -> log_bounded (dispatch now ev w).1.
Proof.
  intros Hw.
  destruct ev as [| | id r | id random | id | id f | id | id]; cbv [dispatch].
  - apply startAgent_bounded, Hw.
  - apply stopAgent_bounded, Hw.
  - destruct (inflight (env w) !! id); [| exact Hw].
    apply resume_bounded. exact Hw.
  - destruct (intervals (env w) !! id) as [[|p step]|]; cbv [fst];
      [| apply simulation_tick_bounded, Hw | exact Hw].
    unfold timer_tick. destruct (startTime (app w)); [| exact Hw].
    destruct (z =? 0)%Z; exact Hw.
  - destruct (ws_state <$> sockets (env w) !! id) as [[| | |]|];
      try exact Hw. apply addLog_bounded.
  - destruct (ws_state <$> sockets (env w) !! id) as [[| | |]|];
      try exact Hw.
    unfold onmessage. destruct (JSON_parse f); [exact Hw |].
    apply handleWebSocketMessage_bounded, Hw.
  - destruct (ws_state <$> sockets (env w) !! id) as [[| | |]|];
      try exact Hw; cbv [fst onerror]; bounded.
  - destruct (ws_state <$> sockets (env w) !! id) as [[| | |]|];
      try exact Hw; apply addLog_bounded.
Qed.

(** X2. The log is bounded for good: if it holds at most 100 entries, it
    still does after any sequence of clicks, answers of the backend, timer
    ticks and socket events. *)
Theorem log_never_exceeds_100 (evs : list (Z * event)) (w : World) :
  log_bounded w -> log_bounded (run evs w).1.
Proof.
  revert w. induction evs as [|[now ev] evs IH]; intros w Hw.
  - exact Hw.
  - rewrite run_cons. apply IH, dispatch_bounded, Hw.
Qed.

Lemma log_never_exceeds_100_witness :
  log_bounded (run (fires 2 thirty_ticks) simulated_world).1.
Proof.
  apply log_never_exceeds_100. unfold log_bounded. vm_compute. lia.
Defined.

(** ** What an event can do to the session *)

(** The part of the state that says whether a session runs and shows it:
    the flag, the handle of the clock, the live intervals, the next free
    handle, the three buttons and the status line. *)
Record Summary := {
  s_running : bool;
  s_timer : option positive;
  s_intervals : gmap positive interval;
  s_next : positive;
  s_buttons : bool * bool * bool;
  s_status : string * string
}.

Definition summary (w : World) : Summary :=
  {| s_running := isRunning (app w);
     s_timer := timerInterval (app w);
     s_intervals := intervals (env w);
     s_next := next_interval (env w);
     s_buttons := (startBtn_disabled (controls (dom w)),
                   stopBtn_disabled (controls (dom w)),
                   pauseBtn_disabled (controls (dom w)));
     s_status := (statusDot (controls (dom w)),
                  statusText (controls (dom w))) |}.

Definition with_intervals (m : gmap positive interval) (s : Summary)
  : Summary :=
  {| s_running := s_running s; s_timer := s_timer s; s_intervals := m;
     s_next := s_next s; s_buttons := s_buttons s; s_status := s_status s |}.

(** The five things the methods do to that part of the state. *)
Inductive step : Summary -> Summary -> Prop :=
| step_started s :
    s_running s = false ->
    step s {| s_running := true; s_timer := Some (s_next s);
              s_intervals := <[s_next s := ElapsedTimer]> (s_intervals s);
              s_next := Pos.succ (s_next s);
              s_buttons := (true, false, false);
              s_status := ("var(--primary)", "Running") |}
| step_simulated s :
    step s {| s_running := s_running s; s_timer := s_timer s;
              s_intervals := <[s_next s := Simulation 0 0]> (s_intervals s);
              s_next := Pos.succ (s_next s);
              s_buttons := s_buttons s; s_status := s_status s |}
| step_advanced s id p st p' st' :
    s_intervals s !! id = Some (Simulation p st) ->
    step s (with_intervals
              (alter (fun _ => Simulation p' st') id (s_intervals s)) s)
| step_cleared s id p st :
    s_intervals s !! id = Some (Simulation p st) ->
    step s (with_intervals (delete id (s_intervals s)) s)
| step_cleaned s :
    step s {| s_running := false; s_timer := None;
              s_intervals := match s_timer s with
                             | Some t => delete t (s_intervals s)
                             | None => s_intervals s
                             end;
              s_next := s_next s;
              s_buttons := (false, true, true);
              s_status := ("var(--success)", "Ready") |}.

Lemma summary_addLog now level message w :
  summary (addLog now level message w) = summary w.
Proof. reflexivity. Qed.

Lemma summary_clearLog now w : summary (clearLog now w) = summary w.
Proof. reflexivity. Qed.

Lemma summary_showNotification message type w :
  summary (showNotification message type w) = summary w.
Proof. reflexivity. Qed.

Lemma summary_switchTab tab w : summary (switchTab tab w) = summary w.
Proof. reflexivity. Qed.

Lemma summary_on_stats f w : summary (on_dom (on_stats f) w) = summary w.
Proof. reflexivity. Qed.

Lemma summary_updatePhase phase w : summary (updatePhase phase w) = summary w.
Proof. reflexivity. Qed.

Lemma summary_updateProgress data w :
  summary (updateProgress data w) = summary w.
Proof.
  unfold updateProgress.
  destruct (defined (prop data "steps")), (defined (prop data "patches")),
    (defined (prop data "progress")); reflexivity.
Qed.

Lemma summary_await c w : summary (on_env (await c) w) = summary w.
Proof. reflexivity. Qed.

Lemma summary_fetch r w : summary (on_env (fetch r) w) = summary w.
Proof. reflexivity. Qed.

Lemma summary_settled id w :
  summary (on_env (fun e => set_inflight (delete id (inflight e))
                              (next_call e) e) w) = summary w.
Proof. reflexivity. Qed.

Lemma summary_set_websocket v w :
  summary (on_app (set_websocket v) w) = summary w.
Proof. reflexivity. Qed.

Lemma summary_set_ws_state st id w :
  summary (set_ws_state st id w) = summary w.
Proof. reflexivity. Qed.

Lemma summary_connectWebSocket now taskId w :
  summary (connectWebSocket now taskId w) = summary w.
Proof. unfold connectWebSocket. destruct (ws_refused (env w)); reflexivity. Qed.

Lemma summary_clearInterval id w :
  summary (on_env (clearInterval id) w) =
  with_intervals (delete id (s_intervals (summary w))) (summary w).
Proof. reflexivity. Qed.

Lemma summary_alter f id w :
  summary (on_env (fun e => set_intervals (alter f id (intervals e))
                              (next_interval e) e) w) =
  with_intervals (alter f id (s_intervals (summary w))) (summary w).
Proof. reflexivity. Qed.

Lemma summary_runSimulation w :
  summary (runSimulation w) =
  {| s_running := s_running (summary w); s_timer := s_timer (summary w);
     s_intervals :=
       <[s_next (summary w) := Simulation 0 0]> (s_intervals (summary w));
     s_next := Pos.succ (s_next (summary w));
     s_buttons := s_buttons (summary w);
     s_status := s_status (summary w) |}.
Proof. reflexivity. Qed.

Lemma summary_cleanupAfterRun now w :
  summary (cleanupAfterRun now w) =
  {| s_running := false; s_timer := None;
     s_intervals := match s_timer (summary w) with
                    | Some t => delete t (s_intervals (summary w))
                    | None => s_intervals (summary w)
                    end;
     s_next := s_next (summary w);
     s_buttons := (false, true, true);
     s_status := ("var(--success)", "Ready") |}.
Proof.
  unfold cleanupAfterRun, updateStatus, addLog, summary.
  destruct w as [[cfg running started timer ws] d e h].
  fields. destruct timer, ws; reflexivity.
Qed.

Lemma summary_handleTaskComplete now data w :
  summary (handleTaskComplete now data w) =
  summary (cleanupAfterRun now w).
Proof.
  unfold handleTaskComplete.
  rewrite summary_switchTab, summary_showNotification.
  rewrite !summary_cleanupAfterRun, !summary_addLog. reflexivity.
Qed.

Create Rewrite HintDb summary.
#[local] Hint Rewrite summary_addLog summary_clearLog
  summary_showNotification summary_switchTab summary_on_stats
  summary_updatePhase summary_updateProgress summary_await summary_fetch
  summary_settled summary_set_websocket summary_set_ws_state
  summary_connectWebSocket summary_clearInterval summary_alter
  summary_runSimulation summary_handleTaskComplete : summary.

Lemma cleanup_steps now w :
  rtc step (summary w) (summary (cleanupAfterRun now w)).
Proof.
  rewrite summary_cleanupAfterRun. apply rtc_once, step_cleaned.
Qed.

Lemma startAgent_catch_steps now error w :
  rtc step (summary w) (summary (startAgent_catch now error w)).
Proof.
  unfold startAgent_catch. cbv zeta. autorewrite with summary.
  apply rtc_once, step_simulated.
Qed.

Lemma startAgent_steps now w :
  rtc step (summary w) (summary (startAgent now w)).
Proof.
  unfold startAgent.
  destruct (config_errors (form (dom w))) as [|err errs] eqn:Hvalid.
  - rewrite validateConfig_valid by exact Hvalid. cbv iota beta.
    cbn [negb]. cbv iota.
    destruct (isRunning (app w)) eqn:Hrun.
    + rewrite summary_showNotification. apply rtc_refl.
    + apply rtc_once.
      exact (step_started (summary w) Hrun).
  - rewrite validateConfig_invalid by (rewrite Hvalid; discriminate).
    cbv iota beta. cbn [negb]. cbv iota.
    unfold validation_report. rewrite summary_showNotification.
    destruct (log_errors_frame now (config_errors (form (dom w))) w)
      as (Ha & He & _ & Hc & _).
    unfold summary. rewrite Ha, He, Hc. apply rtc_refl.
Qed.

Lemma stopAgent_steps now w :
  rtc step (summary w) (summary (stopAgent now w)).
Proof.
  unfold stopAgent. destruct (isRunning (app w)); cbn [negb]; cbv zeta;
    autorewrite with summary; apply rtc_refl.
Qed.

Lemma resume_steps now c r w :
  rtc step (summary w) (summary (resume now c r w)).
Proof.
  destruct c; cbv [resume].
  - unfold startAgent_fetched. destruct r as [e | [|] status | data];
      cbn [negb]; try apply startAgent_catch_steps;
      autorewrite with summary; apply rtc_refl.
  - unfold startAgent_json.
    destruct r as [e | ok status | data];
      [apply startAgent_catch_steps | apply rtc_refl |].
    destruct (nullish data); [apply startAgent_catch_steps |].
    cbv zeta. autorewrite with summary. apply rtc_refl.
  - unfold stopAgent_fetched. cbv zeta.
    rewrite summary_cleanupAfterRun.
    destruct r; rewrite summary_addLog; apply rtc_once, step_cleaned.
Qed.

Lemma simulation_tick_steps now random id p st w :
  intervals (env w) !! id = Some (Simulation p st) ->
  rtc step (summary w) (summary (simulation_tick now random id p st w)).
Proof.
  intros Hid. unfold simulation_tick.
  destruct (isRunning (app w)); cbn [negb].
  2: { rewrite summary_clearInterval.
       apply rtc_once, (step_cleared (summary w) id p st Hid). }
  destruct ((Z.rem st 3 =? 0)%Z && (p <? length phases)%nat);
    cbv beta iota zeta; rewrite !updateProgress_tick;
    destruct (Z.rem (st + 1) 2 =? 0)%Z;
    destruct (30 <=? st + 1)%Z;
    autorewrite with summary.
  all: try (apply rtc_once; eapply step_advanced; exact Hid).
  all: rewrite summary_cleanupAfterRun, summary_clearInterval, summary_alter;
    autorewrite with summary.
  all: eapply rtc_r; [| apply step_cleaned].
  all: eapply rtc_l; [eapply step_advanced; exact Hid |].
  all: apply rtc_once; eapply step_cleared; cbn [with_intervals s_intervals];
    rewrite lookup_alter_eq;
    change (s_intervals (summary w)) with (intervals (env w));
    rewrite Hid; reflexivity.
Qed.

Lemma handleWebSocketMessage_steps now data w :
  rtc step (summary w) (summary (handleWebSocketMessage now data w).1).
Proof.
  unfold handleWebSocketMessage.
  destruct (nullish data); [apply rtc_refl |].
  destruct (prop data "type") as [| | | | |type| |]; try apply rtc_refl.
  destruct (String.eqb type "phase");
    [cbn [fst]; autorewrite with summary; apply rtc_refl |].
  destruct (String.eqb type "log");
    [cbn [fst]; autorewrite with summary; apply rtc_refl |].
  destruct (String.eqb type "progress");
    [cbn [fst]; autorewrite with summary; apply rtc_refl |].
  destruct (String.eqb type "complete").
  { cbn [fst]. rewrite summary_handleTaskComplete. apply cleanup_steps. }
  destruct (String.eqb type "error");
    cbn [fst]; autorewrite with summary; apply rtc_refl.
Qed.

(** Every event moves the session by those steps and no others. *)
Lemma dispatch_steps now ev w :
  rtc step (summary w) (summary (dispatch now ev w).1).
Proof.
  destruct ev as [| | id r | id random | id | id f | id | id]; cbv [dispatch].
  - apply startAgent_steps.
  - apply stopAgent_steps.
  - destruct (inflight (env w) !! id); [| apply rtc_refl]. cbv [fst].
    etransitivity; [| apply resume_steps].
    rewrite summary_settled. apply rtc_refl.
  - destruct (intervals (env w) !! id) as [[|p st]|] eqn:Hid; cbv [fst];
      [| apply simulation_tick_steps, Hid | apply rtc_refl].
    unfold timer_tick. destruct (startTime (app w)); [| apply rtc_refl].
    destruct (z =? 0)%Z; [apply rtc_refl |].
    rewrite summary_on_stats. apply rtc_refl.
  - destruct (ws_state <$> sockets (env w) !! id) as [[| | |]|];
      apply rtc_refl.
  - destruct (ws_state <$> sockets (env w) !! id) as [[| | |]|];
      try apply rtc_refl.
    unfold onmessage. destruct (JSON_parse f); [apply rtc_refl |].
    apply handleWebSocketMessage_steps.
  - destruct (ws_state <$> sockets (env w) !! id) as [[| | |]|];
      apply rtc_refl.
  - destruct (ws_state <$> sockets (env w) !! id) as [[| | |]|];
      apply rtc_refl.
Qed.

Lemma run_steps evs : forall w, rtc step (summary w) (summary (run evs w).1).
Proof.
  induction evs as [|[now ev] evs IH]; intros w.
  - apply rtc_refl.
  - rewrite run_cons. etransitivity; [apply dispatch_steps | apply IH].
Qed.

(** An invariant of the steps is an invariant of every run. *)
Lemma run_invariant (P : Summary -> Prop) :
  (forall s s', step s s' -> P s -> P s') ->
  forall evs w, P (summary w) -> P (summary (run evs w).1).
Proof.
  intros Hstep evs w Hw.
  induction (run_steps evs w) as [s | s s' s'' H _ IH]; [exact Hw |].
  apply IH. exact (Hstep s s' H Hw).
Qed.

(** ** The controls follow the session *)

(** The buttons and the status line say what [isRunning] says: start is
    disabled, stop and pause are enabled and the status reads Running
    exactly while a session runs. *)
Definition controls_agree (w : World) : Prop :=
  startBtn_disabled (controls (dom w)) = isRunning (app w) /\
  stopBtn_disabled (controls (dom w)) = negb (isRunning (app w)) /\
  pauseBtn_disabled (controls (dom w)) = negb (isRunning (app w)) /\
  statusDot (controls (dom w)) =
    (if isRunning (app w) then "var(--primary)" else "var(--success)") /\
  statusText (controls (dom w)) =
    (if isRunning (app w) then "Running" else "Ready").

Definition controls_agree_in (s : Summary) : Prop :=
  (s_buttons s).1.1 = s_running s /\
  (s_buttons s).1.2 = negb (s_running s) /\
  (s_buttons s).2 = negb (s_running s) /\
  (s_status s).1 =
    (if s_running s then "var(--primary)" else "var(--success)") /\
  (s_status s).2 = (if s_running s then "Running" else "Ready").

Lemma step_controls_agree s s' :
  step s s' -> controls_agree_in s -> controls_agree_in s'.
Proof.
  intros Hstep Hs.
  destruct Hstep; try exact Hs; repeat split.
Qed.

(** X3. The controls never disagree with the session: if the buttons and
    the status line match [isRunning], they still do after any sequence of
    events, so that start is offered exactly when no session runs and stop
    exactly when one does. *)
Theorem controls_follow_session (evs : list (Z * event)) (w : World) :
  controls_agree w -> controls_agree (run evs w).1.
Proof.
  intros Hw.
  exact (run_invariant controls_agree_in step_controls_agree evs w Hw).
Qed.

Lemma controls_follow_session_witness :
  controls_agree
    (run [(1000%Z, Click_startBtn); (1001%Z, Click_stopBtn);
          (1005%Z, Settle 1 network_error)] idle_world).1.
Proof.
  apply controls_follow_session. repeat split.
Defined.

(** ** One clock, while a session runs *)

(** The interval of [startTimer] is live exactly while a session runs, it
    is the one whose handle [timerInterval] holds and there is no other;
    the handle is one the platform has given out. *)
Definition one_clock (w : World) : Prop :=
  (isRunning (app w) = true <-> is_Some (timerInterval (app w))) /\
  (forall id, intervals (env w) !! id = Some ElapsedTimer <->
              timerInterval (app w) = Some id) /\
  (forall id, timerInterval (app w) = Some id ->
              (id < next_interval (env w))%positive).

Definition one_clock_in (s : Summary) : Prop :=
  (s_running s = true <-> is_Some (s_timer s)) /\
  (forall id, s_intervals s !! id = Some ElapsedTimer <->
              s_timer s = Some id) /\
  (forall id, s_timer s = Some id -> (id < s_next s)%positive).

Lemma step_one_clock s s' : step s s' -> one_clock_in s -> one_clock_in s'.
Proof.
  intros Hstep (Hrun & Hclock & Hfresh).
  destruct Hstep as [s Hidle | s | s id p st p' st' Hid | s id p st Hid | s];
    unfold one_clock_in; cbn [s_running s_timer s_intervals s_next
                              with_intervals].
  - (* started *)
    assert (Hnone : s_timer s = None).
    { destruct (s_timer s) eqn:Ht; [| reflexivity].
      assert (s_running s = true) by (apply Hrun; eauto). congruence. }
    split; [split; eauto |]. split.
    + intros id. rewrite lookup_insert. case_decide as Hn.
      * subst id. split; reflexivity.
      * rewrite Hclock, Hnone. split; intros H; [discriminate | congruence].
    + intros id [= <-]. lia.
  - (* simulated *)
    split; [exact Hrun |]. split.
    + intros id. rewrite lookup_insert. case_decide as Hn.
      * subst id. split; [discriminate |].
        intros Ht. apply Hfresh in Ht. lia.
      * apply Hclock.
    + intros id Ht. apply Hfresh in Ht. lia.
  - (* advanced *)
    split; [exact Hrun |]. split; [| exact Hfresh].
    intros id'. rewrite lookup_alter. case_decide as Hn.
    + subst id'. rewrite Hid. cbn. split; [discriminate |].
      intros Ht. apply Hclock in Ht. congruence.
    + apply Hclock.
  - (* cleared *)
    split; [exact Hrun |]. split; [| exact Hfresh].
    intros id'. rewrite lookup_delete. case_decide as Hn.
    + subst id'. split; [discriminate |].
      intros Ht. apply Hclock in Ht. congruence.
    + apply Hclock.
  - (* cleaned *)
    split; [split; [discriminate | intros [t Ht]; discriminate] |].
    split; [| discriminate].
    intros id. split; [| discriminate]. intros Hlive. exfalso.
    destruct (s_timer s) as [t|] eqn:Ht.
    + rewrite lookup_delete in Hlive. case_decide as Hn; [discriminate |].
      apply Hclock in Hlive. congruence.
    + apply Hclock in Hlive. discriminate.
Qed.

(** X4. No clock leaks: if the elapsed-time interval is live exactly while
    a session runs and is the only one of its kind, that stays so through
    any sequence of events.  Each start sets one clock and every way a
    session ends (stop answered, completion from the socket or from the
    simulation) clears it. *)
Theorem one_clock_while_running (evs : list (Z * event)) (w : World) :
  one_clock w -> one_clock (run evs w).1.
Proof.
  intros Hw.
  exact (run_invariant one_clock_in step_one_clock evs w Hw).
Qed.

Lemma idle_world_one_clock : one_clock idle_world.
Proof.
  split; [split; [discriminate | intros [t Ht]; discriminate] |].
  split; [| discriminate].
  intros id. split; [| discriminate].
  cbn. rewrite lookup_empty. discriminate.
Qed.

Lemma one_clock_while_running_witness :
  one_clock
    (run [(1000%Z, Click_startBtn); (1001%Z, Click_stopBtn);
          (1005%Z, Settle 1 network_error)] idle_world).1.
Proof.
  apply one_clock_while_running. exact idle_world_one_clock.
Defined.

(** ** The elapsed-time display *)

(** X5. What the clock shows.  With a start time [t] other than 0 and not
    in the future, a tick at [now] shows [m]:[s] where [s] is below 60 and
    [60 m + s] is the whole number of seconds since [t]; nothing else
    changes.  With no start time, or the start time 0 (which the test
    takes for none), the tick changes nothing. *)
Theorem elapsed_display (now t : Z) (w : World) :
  (startTime (app w) = Some t -> t <> 0%Z -> (t <= now)%Z ->
   exists m s : Z,
     timer_tick now w =
       on_dom (on_stats (set_elapsedTime
         [Interp (num m); Lit ":"; PadStart2 (num s)])) w /\
     (0 <= s < 60)%Z /\ (0 <= m)%Z /\
     (60 * m + s = (now - t) / 1000)%Z) /\
  (startTime (app w) = None \/ startTime (app w) = Some 0%Z ->
   timer_tick now w = w).
Proof.
  split.
  - intros Hstart Hnz Hle. unfold timer_tick. rewrite Hstart.
    destruct (t =? 0)%Z eqn:Ht; [apply Z.eqb_eq in Ht; contradiction |].
    unfold since. cbn [default].
    set (elapsed := ((now - t) / 1000)%Z).
    assert (Hpos : (0 <= elapsed)%Z) by (apply Z.div_pos; lia).
    exists (elapsed / 60)%Z, (Z.rem elapsed 60).
    split; [reflexivity |].
    rewrite Z.rem_mod_nonneg by lia.
    pose proof (Z.mod_pos_bound elapsed 60 ltac:(lia)).
    pose proof (Z.div_mod elapsed 60 ltac:(lia)).
    split; [lia |]. split; [apply Z.div_pos; lia | lia].
  - intros [Hnone | Hzero]; unfold timer_tick; rewrite ?Hnone, ?Hzero;
      reflexivity.
Qed.

Lemma elapsed_display_witness :
  exists m s : Z,
    timer_tick 126000 started_world =
      on_dom (on_stats (set_elapsedTime
        [Interp (num m); Lit ":"; PadStart2 (num s)])) started_world /\
    (0 <= s < 60)%Z /\ (0 <= m)%Z /\
    (60 * m + s = (126000 - 1000) / 1000)%Z.
Proof.
  exact (proj1 (elapsed_display 126000 1000 started_world)
           eq_refl ltac:(discriminate) ltac:(discriminate)).
Defined.

(** ** Teardown *)

Lemma cleanupAfterRun_sockets now w :
  sockets (env (cleanupAfterRun now w)) =
  match websocket (app w) with
  | Some id => alter closing id (sockets (env w))
  | None => sockets (env w)
  end.
Proof.
  unfold cleanupAfterRun, updateStatus, addLog.
  destruct w as [[cfg running started timer ws] d e h].
  fields. destruct timer, ws; reflexivity.
Qed.

(** X6. The cleanup releases what the session held: the flag and both
    handles are reset, the clock it held never fires again and no frame of
    the socket it held is handled any more. *)
Theorem cleanup_releases (now : Z) (w : World) :
  let w' := cleanupAfterRun now w in
  isRunning (app w') = false /\
  timerInterval (app w') = None /\
  websocket (app w') = None /\
  (forall t, timerInterval (app w) = Some t ->
     forall later random, dispatch later (Fire t random) w' = (w', None)) /\
  (forall s, websocket (app w) = Some s ->
     forall later f, dispatch later (Socket_message s f) w' = (w', None)).
Proof.
  cbv zeta. rewrite cleanupAfterRun_app. cbn [isRunning timerInterval websocket].
  split; [reflexivity |]. split; [reflexivity |]. split; [reflexivity |].
  split.
  - intros t Ht later random. apply fire_cleared.
    rewrite cleanupAfterRun_intervals, Ht. apply lookup_delete_eq.
  - intros s Hs later f. cbv [dispatch].
    rewrite cleanupAfterRun_sockets, Hs, lookup_alter_eq.
    destruct (sockets (env w) !! s) as [[task [| | |]]|]; reflexivity.
Qed.

Lemma cleanup_releases_witness :
  let w' := cleanupAfterRun 5000 connected_world in
  dispatch 6000 (Fire 1 0) w' = (w', None) /\
  dispatch 6000 (Socket_message 0 (Json complete_frame)) w' = (w', None).
Proof.
  pose proof (cleanup_releases 5000 connected_world) as H. cbv zeta in H.
  destruct H as (_ & _ & _ & Hclock & Hsocket).
  split; [exact (Hclock 1%positive eq_refl 6000%Z 0%Q) |
          exact (Hsocket 0 eq_refl 6000%Z (Json complete_frame))].
Defined.

(** ** The answer to the start request *)

(** The answers that give no task to follow: the request fails, the
    status is not a success, the body cannot be read, or it reads as
    [null]. *)
Definition no_task (c : call) (r : settlement) : bool :=
  match c, r with
  | StartFetch, Rejected _ => true
  | StartFetch, Response ok _ => negb ok
  | StartJson, Rejected _ => true
  | StartJson, Body data => nullish data
  | _, _ => false
  end.

(** X7. Every failure to get a task from the backend ends in the
    simulation: whichever of the four ways the start request fails, the
    continuation logs the failure and the switch to simulation mode (the
    last two lines of the log) and sets up one simulation, at step 0, on
    the next free handle; it opens no socket and leaves the controller's
    fields alone. *)
Theorem start_failure_falls_back (now : Z) (c : call) (r : settlement)
  (w : World) :
  no_task c r = true ->
  let w' := resume now c r w in
  intervals (env w') =
    <[next_interval (env w) := Simulation 0 0]> (intervals (env w)) /\
  next_interval (env w') = Pos.succ (next_interval (env w)) /\
  sockets (env w') = sockets (env w) /\
  app w' = app w /\
  exists older error,
    logContainer (dom w') =
      older ++
      [ {| log_time := now; log_level := VStr "error";
           log_message := Lit "Failed to start agent: " :: error |};
        {| log_time := now; log_level := VStr "warning";
           log_message :=
             [Lit "Running in simulation mode (backend not available)"] |} ].
Proof.
  intros Hno. cbv zeta.
  assert (Hcatch : exists error, resume now c r w = startAgent_catch now error w).
  { destruct c, r as [e | [|] status | data]; try discriminate; cbv [resume].
    - exists e. reflexivity.
    - eexists. reflexivity.
    - exists e. reflexivity.
    - cbn [no_task] in Hno. eexists. unfold startAgent_json.
      rewrite Hno. reflexivity. }
  destruct Hcatch as [error ->].
  split; [reflexivity |]. split; [reflexivity |]. split; [reflexivity |].
  split; [reflexivity |].
  unfold startAgent_catch. cbv zeta.
  change (logContainer (dom (runSimulation ?x))) with (logContainer (dom x)).
  rewrite !addLog_unfold. cbn [dom logContainer on_dom set_logContainer].
  destruct (grow_log (logContainer (dom w)) (logContainer (dom w)) []
              {| log_time := now; log_level := VStr "error";
                 log_message := Lit "Failed to start agent: "
                                :: exn_message error |})
    as [o1 H1]; [symmetry; apply app_nil_r | simpl; lia |].
  destruct (grow_log _ _ _
              {| log_time := now; log_level := VStr "warning";
                 log_message :=
                   [Lit "Running in simulation mode (backend not available)"]
              |} H1)
    as [o2 H2]; [simpl; lia |].
  exists o2, (exn_message error). exact H2.
Qed.

Lemma start_failure_falls_back_witness :
  intervals (env (resume 1010 StartFetch (Response false 503) started_world))
  = <[2%positive := Simulation 0 0]> (intervals (env started_world)).
Proof.
  exact (proj1 (start_failure_falls_back 1010 StartFetch (Response false 503)
                  started_world eq_refl)).
Defined.

(** X8. A body that is not [null] opens the socket of the task, whatever
    the body holds (a body without [task_id] opens the socket of
    [undefined]); no simulation is set up.  And if the platform refuses
    the socket, the log says that the simulation is used but none is set
    up: no interval, no socket and no request is added, so that nothing is
    left to report on the session. *)
Theorem start_success_opens_socket (now : Z) (data : value) (w : World) :
  nullish data = false ->
  let w' := resume now StartJson (Body data) w in
  intervals (env w') = intervals (env w) /\
  requests (env w') = requests (env w) /\
  inflight (env w') = inflight (env w) /\
  isRunning (app w') = isRunning (app w) /\
  (ws_refused (env w) = false ->
   websocket (app w') = Some (next_socket (env w)) /\
   sockets (env w') !! next_socket (env w) =
     Some {| ws_taskId := prop data "task_id"; ws_state := CONNECTING |}) /\
  (ws_refused (env w) = true ->
   websocket (app w') = websocket (app w) /\
   sockets (env w') = sockets (env w) /\
   lines "Could not connect WebSocket, using simulation" w' >= 1).
Proof.
  intros Hdata. cbv zeta. cbv [resume]. unfold startAgent_json.
  rewrite Hdata. cbv zeta. unfold connectWebSocket. cbn [env addLog on_dom].
  destruct (ws_refused (env w)) eqn:Hrefused.
  - repeat split; try discriminate.
    unfold lines. rewrite !addLog_unfold.
    cbn [dom logContainer on_dom set_logContainer].
    destruct (last100_suffix
                (last100 (logContainer (dom w) ++
                   [{| log_time := now; log_level := VStr "success";
                       log_message :=
                         [Lit "Agent started successfully. Task ID: ";
                          Interp (prop data "task_id")] |}]))
                [{| log_time := now; log_level := VStr "warning";
                    log_message :=
                      [Lit "Could not connect WebSocket, using simulation"]
                 |}]) as [older Holder]; [simpl; lia |].
    rewrite Holder, List.filter_app, length_app. cbn. lia.
  - repeat split; try discriminate.
    cbn. apply lookup_insert_eq.
Qed.

Lemma start_success_opens_socket_witness :
  websocket
    (app (resume 1020 StartJson (Body (VObj [("status", VStr "started")]))
            started_world)) = Some 0.
Proof.
  exact (proj1 (proj1 (proj2 (proj2 (proj2 (proj2
           (start_success_opens_socket 1020
              (VObj [("status", VStr "started")]) started_world eq_refl)))))
           eq_refl)).
Defined.

(** ** Progress, frames and the form *)

(** X9. [updateProgress] writes the patch count when [patches] is there
    and the step display when [steps] is there, where it shows
    [current_step] and [total_steps] as they come, [undefined] included;
    it leaves each as it was when its key is not there.  The phase and
    the clock it never touches, nor anything outside the statistics, and
    doing it twice with the same data shows what doing it once shows.
    (What the bar shows of the text assigned under [progress] is the
    page's reading of that text, which is not modelled; the bar is left
    out here.) *)
Theorem updateProgress_sparse (data : value) (w : World) :
  let w' := updateProgress data w in
  stepsCompleted (stats (dom w')) =
    (if defined (prop data "steps")
     then [Interp (prop data "current_step"); Lit " / ";
           Interp (prop data "total_steps")]
     else stepsCompleted (stats (dom w))) /\
  patchesTried (stats (dom w')) =
    (if defined (prop data "patches") then prop data "patches"
     else patchesTried (stats (dom w))) /\
  currentPhase (stats (dom w')) = currentPhase (stats (dom w)) /\
  elapsedTime (stats (dom w')) = elapsedTime (stats (dom w)) /\
  app w' = app w /\ env w' = env w /\ taskHistory w' = taskHistory w /\
  form (dom w') = form (dom w) /\ controls (dom w') = controls (dom w) /\
  logContainer (dom w') = logContainer (dom w) /\
  notifications (dom w') = notifications (dom w) /\
  stepsCompleted (stats (dom (updateProgress data w'))) =
    stepsCompleted (stats (dom w')) /\
  patchesTried (stats (dom (updateProgress data w'))) =
    patchesTried (stats (dom w')).
Proof.
  cbv zeta. unfold updateProgress.
  destruct w as [a [f c [ph st pa wi el] l n] e h].
  destruct (defined (prop data "steps")), (defined (prop data "patches")),
    (defined (prop data "progress")); repeat split.
Qed.

(** The five types the [switch] of [handleWebSocketMessage] knows. *)
Definition known_types : list string :=
  ["phase"; "log"; "progress"; "complete"; "error"].

(** X10. A frame of a type the [switch] does not know is dropped: an
    object whose [type] is none of the five strings (another string, a
    number, anything) changes nothing and throws nothing. *)
Theorem unknown_type_ignored (now : Z) (data : value) (w : World) :
  nullish data = false ->
  (forall type, prop data "type" = VStr type -> type ∉ known_types) ->
  onmessage now (Json data) w = (w, None).
Proof.
  intros Hdata Hunknown. unfold onmessage, JSON_parse, handleWebSocketMessage.
  rewrite Hdata.
  destruct (prop data "type") as [| | | | |type| |]; try reflexivity.
  specialize (Hunknown type eq_refl).
  destruct (String.eqb_spec type "phase") as [-> |];
    [exfalso; apply Hunknown; unfold known_types; set_solver |].
  destruct (String.eqb_spec type "log") as [-> |];
    [exfalso; apply Hunknown; unfold known_types; set_solver |].
  destruct (String.eqb_spec type "progress") as [-> |];
    [exfalso; apply Hunknown; unfold known_types; set_solver |].
  destruct (String.eqb_spec type "complete") as [-> |];
    [exfalso; apply Hunknown; unfold known_types; set_solver |].
  destruct (String.eqb_spec type "error") as [-> |];
    [exfalso; apply Hunknown; unfold known_types; set_solver |].
  reflexivity.
Qed.

Lemma unknown_type_ignored_witness :
  onmessage 1040 (Json (VObj [("type", VStr "heartbeat")])) connected_world
  = (connected_world, None).
Proof.
  apply unknown_type_ignored; [reflexivity |].
  intros type [= <-]. unfold known_types. intros Hin.
  repeat (apply elem_of_cons in Hin as [Hin | Hin]; [discriminate |]).
  apply elem_of_nil in Hin. exact Hin.
Defined.



(** ** What the simulation shows *)

(** The phase shown after [k] ticks of the simulation, from the
    statistics [s0] it started with. *)
Definition phase_after (k : Z) (s0 : Stats) : value :=
  if (k <=? 0)%Z then currentPhase s0
  else index phases (Z.min ((k - 1) / 3) 6).

(** The patch count shown after [k] ticks: a patch every five ticks. *)
Definition patches_after (k : Z) (s0 : Stats) : value :=
  if (k <=? 0)%Z then patchesTried s0 else num (k / 5).

(** The statistics [s] show [k] ticks of a simulation that started on the
    statistics [s0]: its phase and its patch count; the step display and
    the clock are not its own.  The bar is left out: its width is a
    floating-point number, and what the page shows of it is not
    modelled. *)
Definition shows (k : Z) (s0 s : Stats) : Prop :=
  currentPhase s = phase_after k s0 /\
  patchesTried s = patches_after k s0 /\
  stepsCompleted s = stepsCompleted s0 /\
  elapsedTime s = elapsedTime s0.

(** The simulation [id] drives a running session and has made [k] ticks
    since it started on the statistics [s0]. *)
Definition simulating (w : World) (id : positive) (k : Z) (s0 : Stats)
  : Prop :=
  isRunning (app w) = true /\
  intervals (env w) !! id =
    Some (Simulation (Z.to_nat (Z.min ((k + 2) / 3) 7)) k) /\
  shows k s0 (stats (dom w)).

Lemma cleanupAfterRun_stats now w :
  stats (dom (cleanupAfterRun now w)) = stats (dom w).
Proof.
  unfold cleanupAfterRun, updateStatus, addLog.
  destruct w as [[cfg running started timer ws] d e h].
  fields. destruct timer, ws; reflexivity.
Qed.

Lemma handleTaskComplete_stats now data w :
  stats (dom (handleTaskComplete now data w)) = stats (dom w).
Proof.
  unfold handleTaskComplete, switchTab, showNotification.
  cbn [dom stats on_dom on_controls set_notifications].
  rewrite cleanupAfterRun_stats. reflexivity.
Qed.

Lemma shows_next k s0 s s' :
  shows k s0 s -> (0 <= k)%Z ->
  currentPhase s' = phase_after (k + 1) s0 ->
  patchesTried s' = num ((k + 1) / 5) ->
  stepsCompleted s' = stepsCompleted s ->
  elapsedTime s' = elapsedTime s ->
  shows (k + 1) s0 s'.
Proof.
  intros (_ & _ & Hst & Hel) Hk Hph' Hpa' Hst' Hel'.
  split; [exact Hph' |]. split.
  - rewrite Hpa'. unfold patches_after.
    destruct (Z.leb_spec (k + 1) 0); [lia | reflexivity].
  - split; [exact (eq_trans Hst' Hst) | exact (eq_trans Hel' Hel)].
Qed.

(** One tick of the simulation moves the statistics one tick on. *)
Lemma tick_shows now random id k s0 w :
  simulating w id k s0 -> (0 <= k < 30)%Z ->
  let w' := (dispatch now (Fire id random) w).1 in
  shows (k + 1) s0 (stats (dom w')) /\
  ((k < 29)%Z -> simulating w' id (k + 1) s0).
Proof.
  intros (Hrun & Hid & Hshows) Hk. cbv zeta. cbv [dispatch]. rewrite Hid.
  cbv [fst]. unfold simulation_tick. rewrite Hrun. cbn [negb].
  change (length phases) with 7.
  set (p := Z.to_nat (Z.min ((k + 2) / 3) 7)) in *.
  pose proof (proj1 Hshows) as Hph.
  assert (Hphase :
    (if (Z.rem k 3 =? 0)%Z && (p <? 7)%nat
     then index phases (Z.of_nat p)
     else currentPhase (stats (dom w)))
    = phase_after (k + 1) s0).
  { unfold phase_after at 1.
    destruct (Z.leb_spec (k + 1) 0) as [|_]; [lia |].
    replace (k + 1 - 1)%Z with k by lia.
    destruct (Z.eqb_spec (Z.rem k 3) 0) as [Hrem | Hrem];
      destruct (Nat.ltb_spec p 7) as [Hp | Hp]; cbn [andb].
    - f_equal. subst p. Z.to_euclidean_division_equations. lia.
    - rewrite Hph. unfold phase_after.
      destruct (Z.leb_spec k 0) as [Hle | Hgt];
        [subst p; exfalso; Z.to_euclidean_division_equations; lia |].
      f_equal. subst p. Z.to_euclidean_division_equations. lia.
    - rewrite Hph. unfold phase_after.
      destruct (Z.leb_spec k 0) as [Hle | Hgt];
        [exfalso; Z.to_euclidean_division_equations; lia |].
      f_equal. Z.to_euclidean_division_equations. lia.
    - rewrite Hph. unfold phase_after.
      destruct (Z.leb_spec k 0) as [Hle | Hgt];
        [exfalso; Z.to_euclidean_division_equations; lia |].
      f_equal. Z.to_euclidean_division_equations. lia. }
  assert (Hindex :
    (if (Z.rem k 3 =? 0)%Z && (p <? 7)%nat then S p else p)
    = Z.to_nat (Z.min ((k + 1 + 2) / 3) 7)).
  { destruct (Z.eqb_spec (Z.rem k 3) 0) as [Hrem | Hrem];
      destruct (Nat.ltb_spec p 7) as [Hp | Hp]; cbn [andb]; subst p;
      Z.to_euclidean_division_equations; lia. }
  destruct ((Z.rem k 3 =? 0)%Z && (p <? 7)%nat);
    cbv beta iota zeta; rewrite !updateProgress_tick;
    destruct (Z.rem (k + 1) 2 =? 0)%Z;
    destruct (Z.leb_spec 30 (k + 1)) as [Hdone | Hgo];
    rewrite ?handleTaskComplete_stats;
    cbn [dom stats on_env on_dom on_stats addLog updatePhase
         set_logContainer].
  all: match goal with
       | |- shows _ _ ?s /\ _ =>
           assert (Hnext : shows (k + 1) s0 s)
             by (apply (shows_next k s0 (stats (dom w)));
                 [exact Hshows | lia | exact Hphase | reflexivity
                 | reflexivity | reflexivity])
       end.
  all: split; [exact Hnext |]; intros Hlt; try lia.
  all: split; [exact Hrun |]; split;
    [cbn [env on_env intervals set_intervals]; rewrite lookup_alter_eq;
     match goal with
     | |- _ <$> ?m !! _ = _ => change m with (intervals (env w))
     end; rewrite Hid, <- Hindex; reflexivity |].
  all: exact Hnext.
Qed.

Lemma ticks_show id s0 ticks : forall k w,
  simulating w id k s0 -> (0 <= k)%Z ->
  (k + Z.of_nat (length ticks) <= 29)%Z ->
  simulating (run (fires id ticks) w).1 id (k + Z.of_nat (length ticks)) s0.
Proof.
  induction ticks as [|[now random] ticks IH]; intros k w Hw Hk Hlen.
  - cbn [length fires map]. rewrite run_nil.
    replace (k + Z.of_nat 0)%Z with k by lia. exact Hw.
  - cbn [length] in Hlen |- *. cbn [fires map]. rewrite run_cons.
    destruct (tick_shows now random id k s0 w Hw ltac:(lia)) as (_ & Hnext).
    replace (k + Z.of_nat (S (length ticks)))%Z
      with (k + 1 + Z.of_nat (length ticks))%Z by lia.
    apply IH; [apply Hnext; lia | lia | lia].
Qed.

Lemma runSimulation_simulating w :
  isRunning (app w) = true ->
  simulating (runSimulation w) (next_interval (env w)) 0 (stats (dom w)).
Proof.
  intros Hrun. split; [exact Hrun |]. split; [| repeat split].
  cbn. apply lookup_insert_eq.
Qed.



(** ** A simulation left behind *)

(** A stopped session leaves its simulation to clear itself at its next
    tick.  X13. If a new session is started before that tick, the old
    simulation drives it: it goes on from the step it had reached, and the
    new session is completed when that count reaches thirty, after fewer
    ticks than a run takes. *)
Theorem leftover_simulation_drives_restart (w : World) (start : Z)
  (id : positive) (p : nat) (st : Z) (ticks : list (Z * Q)) (now : Z)
  (random : Q) :
  config_errors (form (dom w)) = [] ->
  isRunning (app w) = false ->
  intervals (env w) !! id = Some (Simulation p st) ->
  id <> next_interval (env w) ->
  (0 <= st)%Z ->
  (st + Z.of_nat (length ticks) = 29)%Z ->
  let w1 := startAgent start w in
  let w2 := (run (fires id (ticks ++ [(now, random)])) w1).1 in
  ticking w1 id st /\
  completions w2 = completions w + 1 /\
  isRunning (app w2) = false.
Proof.
  intros Hvalid Hidle Hid Hfresh Hst Hlen w1 w2.
  destruct (startAgent_accepted start w Hvalid Hidle)
    as (Hrun1 & _ & Hn1 & Hiv1 & _).
  fold w1 in Hrun1, Hn1, Hiv1.
  assert (Hw1 : ticking w1 id st).
  { split; [exact Hrun1 |]. exists p.
    rewrite Hiv1, lookup_insert_ne by congruence. exact Hid. }
  split; [exact Hw1 |].
  destruct (ticks_early id ticks st w1 Hw1 Hst ltac:(lia))
    as (Ht & _ & Hn & _).
  rewrite Hlen in Ht.
  subst w2. rewrite fires_app, run_app. cbn [fires map].
  rewrite run_cons, run_nil.
  destruct (tick_last now random id _ Ht) as (Hstop & Hn2 & _).
  split; [| exact Hstop].
  apply completions_one_more. rewrite Hn2, Hn, Hn1. reflexivity.
Qed.

(** A session stopped after five ticks of its simulation, before the
    sixth. *)
Definition stopped_with_leftover : World :=
  (run ([(1000%Z, Click_startBtn); (1010%Z, Settle 0 network_error)]
        ++ fires 2 (take 5 thirty_ticks)
        ++ [(6100%Z, Click_stopBtn); (6110%Z, Settle 1 network_error)])
     idle_world).1.

Lemma leftover_simulation_drives_restart_witness :
  completions
    (run (fires 2 (drop 6 thirty_ticks ++ [(40000%Z, 0%Q)]))
       (startAgent 6200 stopped_with_leftover)).1
  = completions stopped_with_leftover + 1.
Proof.
  exact (proj1 (proj2 (leftover_simulation_drives_restart
                         stopped_with_leftover 6200 2 2 5
                         (drop 6 thirty_ticks) 40000 0
                         eq_refl eq_refl eq_refl ltac:(discriminate)
                         ltac:(lia) eq_refl))).
Defined.

(** ** An accepted start, and a second cleanup *)

(** The five lines an accepted start writes. *)
Definition start_log (now : Z) (c : Config) : list LogEntry :=
  [ {| log_time := now; log_level := VStr "info";
       log_message := [Lit "Log cleared"] |};
    {| log_time := now; log_level := VStr "info";
       log_message := [Lit "Starting RFSN Agent..."] |};
    {| log_time := now; log_level := VStr "info";
       log_message := [Lit "Repository: "; Interp (VStr (repoUrl c))] |};
    {| log_time := now; log_level := VStr "info";
       log_message := [Lit "Profile: "; Interp (VStr (profile c))] |};
    {| log_time := now; log_level := VStr "info";
       log_message := [Lit "Max Steps: "; Interp (maxSteps c);
                       Lit ", Max Time: "; Interp (maxTime c);
                       Lit " minutes"] |} ].

(** X17. An accepted start (valid form, no session running) takes the
    form as the configuration, notes the time, selects the process tab and
    sends one start request carrying that configuration.  It wipes the
    log, which then holds the five start lines and nothing of what it held
    before; the statistics of the run before are not reset: phase, step
    display, patch count, bar and clock show what they did. *)
Theorem accepted_start (now : Z) (w : World) :
  config_errors (form (dom w)) = [] ->
  isRunning (app w) = false ->
  let w' := startAgent now w in
  config (app w') = Some (form (dom w)) /\
  startTime (app w') = Some now /\
  isRunning (app w') = true /\
  activeTab (controls (dom w')) = "process" /\
  logContainer (dom w') = start_log now (form (dom w)) /\
  requests (env w') = requests (env w) ++ [PostStart (Some (form (dom w)))] /\
  stats (dom w') = stats (dom w) /\
  notifications (dom w') = notifications (dom w).
Proof.
  intros Hvalid Hidle. cbv zeta. unfold startAgent.
  rewrite validateConfig_valid by exact Hvalid. cbv iota beta.
  cbn [negb]. cbv iota. rewrite Hidle. repeat split.
Qed.

Lemma accepted_start_witness :
  logContainer (dom (startAgent 7000 stopped_with_leftover)) =
  start_log 7000 example_config.
Proof.
  exact (proj1 (proj2 (proj2 (proj2 (proj2
           (accepted_start 7000 stopped_with_leftover eq_refl eq_refl)))))).
Defined.

(** X18. The cleanup can be run again: on a state it has cleaned, a
    second cleanup only adds its line to the log; it closes nothing,
    clears nothing and changes no control a second time. *)
Theorem cleanup_twice (now1 now2 : Z) (w : World) :
  cleanupAfterRun now2 (cleanupAfterRun now1 w) =
  addLog now2 (VStr "info") [Lit "Agent stopped"] (cleanupAfterRun now1 w).
Proof.
  unfold cleanupAfterRun, updateStatus, addLog.
  destruct w as [[cfg running started timer ws] d e h].
  fields. destruct timer, ws; reflexivity.
Qed.

(** * The task history of [UIEnhancements] *)

Module History.

(** A record of the history, with the time stamp [addToHistory] gave it
    (milliseconds, as [Date.now()] counts them) and the fields the history
    tab shows. *)
Record Task := {
  timestamp : Z;
  success : value;
  duration : value;
  patchesTried : value;
  strategy : value
}.

(** [task.timestamp = Date.now()] *)
Definition stamp (now : Z) (task : Task) : Task :=
  {| timestamp := now; success := success task; duration := duration task;
     patchesTried := patchesTried task; strategy := strategy task |}.

Definition day : Z := 24 * 60 * 60 * 1000.

(** [addToHistory]: the list it leaves in [taskHistory].  [retention] is
    the number [parseInt] reads from the stored setting (30 when there is
    none), [None] when it reads no number: the cutoff is then not a
    number and no time stamp compares greater. *)
Definition addToHistory (now : Z) (retention : option Z) (task : Task)
  (taskHistory : list Task) : list Task :=
  let taskHistory := stamp now task :: taskHistory in
  (* Limit history size *)
  match retention with
  | Some retention =>
      let cutoff := (now - retention * day)%Z in
      List.filter (fun t => (cutoff <? timestamp t)%Z) taskHistory
  | None => []
  end.

(** [sortHistory]: [sort] with the comparator [b.timestamp - a.timestamp],
    latest first.  The platform's sort is stable, which with the order
    fixes its result; it is written here as an insertion from the right
    that puts a record before the first one that is not later. *)
Fixpoint insert (t : Task) (l : list Task) : list Task :=
  match l with
  | [] => [t]
  | x :: rest =>
      if (timestamp t <? timestamp x)%Z then x :: insert t rest
      else t :: l
  end.

Definition sortHistory (taskHistory : list Task) : list Task :=
  foldr insert [] taskHistory.

(** Latest first. *)
Definition latest_first : list Task -> Prop :=
  StronglySorted (fun a b => (timestamp b <= timestamp a)%Z).

Lemma filter_latest_first f l : latest_first l -> latest_first (List.filter f l).
Proof.
  unfold latest_first. induction 1 as [|x l Hl IH Hx]; cbn.
  - constructor.
  - destruct (f x); [| exact IH].
    constructor; [exact IH |].
    rewrite Forall_forall in Hx |- *. intros y Hy.
    apply list_elem_of_In, filter_In in Hy as [Hy _].
    apply Hx, list_elem_of_In, Hy.
Qed.

(** X14. What [addToHistory] keeps.  Every record it leaves is younger
    than the retention, the survivors keep their order, and with a
    retention of a day or more the new record comes first.  With a
    retention of zero or less the record just added is dropped with the
    rest, and with a setting that is no number the history is emptied. *)
Theorem addToHistory_retention (now retention : Z) (task : Task)
  (taskHistory : list Task) :
  let kept := addToHistory now (Some retention) task taskHistory in
  let young t := (now - retention * day <? timestamp t)%Z in
  (forall t, t ∈ kept -> (now - timestamp t < retention * day)%Z) /\
  kept `sublist_of` stamp now task :: taskHistory /\
  ((0 < retention)%Z ->
   kept = stamp now task :: List.filter young taskHistory) /\
  ((retention <= 0)%Z ->
   kept = List.filter young taskHistory /\
   forall t, t ∈ kept -> (now < timestamp t)%Z) /\
  addToHistory now None task taskHistory = [].
Proof.
  cbv zeta. unfold addToHistory. cbv zeta.
  assert (Hday : (0 < day)%Z) by reflexivity.
  split.
  { intros t Ht. apply list_elem_of_In, filter_In in Ht as [_ Ht].
    apply Z.ltb_lt in Ht. lia. }
  split.
  { generalize (stamp now task :: taskHistory). intros l.
    induction l as [|x l IH]; cbn; [constructor |].
    destruct (_ <? _)%Z; [apply sublist_skip | apply sublist_cons]; exact IH. }
  split.
  { intros Hpos. cbn [List.filter stamp timestamp].
    destruct (Z.ltb_spec (now - retention * day) now) as [_ | Hge];
      [reflexivity | nia]. }
  split; [| reflexivity].
  intros Hnone.
  assert (Hdrop : (now - retention * day <? now)%Z = false)
    by (apply Z.ltb_ge; nia).
  cbn [List.filter stamp timestamp]. rewrite Hdrop.
  split; [reflexivity |].
  intros t Ht. apply list_elem_of_In, filter_In in Ht as [_ Ht].
  apply Z.ltb_lt in Ht. nia.
Qed.

Lemma addToHistory_retention_witness :
  let old := {| timestamp := 0%Z; success := VBool true; duration := num 12;
                patchesTried := num 2; strategy := VStr "direct" |} in
  let new := {| timestamp := 0%Z; success := VBool false; duration := num 7;
                patchesTried := num 1; strategy := VStr "ensemble" |} in
  addToHistory (31 * day)%Z (Some 30%Z) new [old] = [stamp (31 * day)%Z new].
Proof.
  cbv zeta.
  rewrite (proj1 (proj2 (proj2 (addToHistory_retention (31 * day)%Z 30%Z _ _)))
             ltac:(lia)).
  reflexivity.
Defined.

(** X15. The history stays latest first: if it is in that order and no
    record is stamped later than now, it still is after [addToHistory],
    whatever the retention. *)
Theorem addToHistory_latest_first (now : Z) (retention : option Z)
  (task : Task) (taskHistory : list Task) :
  latest_first taskHistory ->
  (forall t, t ∈ taskHistory -> (timestamp t <= now)%Z) ->
  latest_first (addToHistory now retention task taskHistory).
Proof.
  intros Hsorted Hpast. unfold addToHistory. cbv zeta.
  destruct retention as [retention|]; [| constructor].
  apply filter_latest_first. constructor; [exact Hsorted |].
  rewrite Forall_forall. intros t Ht. cbn. apply Hpast, Ht.
Qed.

Lemma addToHistory_latest_first_witness :
  latest_first
    (addToHistory 5000%Z (Some 30%Z)
       {| timestamp := 0%Z; success := VBool true; duration := num 3;
          patchesTried := num 0; strategy := VStr "direct" |}
       [ {| timestamp := 4000%Z; success := VBool false; duration := num 9;
            patchesTried := num 4; strategy := VStr "ensemble" |} ]).
Proof.
  apply addToHistory_latest_first.
  - repeat constructor.
  - intros t Ht. apply list_elem_of_singleton in Ht as ->. cbn. lia.
Defined.

Lemma insert_perm t l : insert t l ≡ₚ t :: l.
Proof.
  induction l as [|x l IH]; cbn; [reflexivity |].
  destruct (_ <? _)%Z; [| reflexivity].
  rewrite IH. apply Permutation_swap.
Qed.

Lemma insert_latest_first t l :
  latest_first l -> latest_first (insert t l).
Proof.
  unfold latest_first. induction 1 as [|x l Hl IH Hx]; cbn.
  - repeat constructor.
  - destruct (Z.ltb_spec (timestamp t) (timestamp x)) as [Hlt | Hge].
    + constructor; [exact IH |].
      rewrite insert_perm. constructor; [lia | exact Hx].
    + constructor; [constructor; assumption |].
      constructor; [exact Hge |].
      rewrite Forall_forall in Hx |- *. intros y Hy.
      specialize (Hx y Hy). lia.
Qed.

Lemma insert_sorted t l :
  latest_first (t :: l) -> insert t l = t :: l.
Proof.
  intros Hs. destruct l as [|x l]; [reflexivity |]. cbn.
  apply StronglySorted_inv in Hs as [_ Hs].
  apply Forall_inv in Hs.
  destruct (Z.ltb_spec (timestamp t) (timestamp x)); [lia | reflexivity].
Qed.

Lemma insert_stable (v : Z) t l :
  List.filter (fun x => (timestamp x =? v)%Z) (insert t l) =
  List.filter (fun x => (timestamp x =? v)%Z) (t :: l).
Proof.
  induction l as [|x l IH]; [reflexivity |]. cbn [insert].
  destruct (Z.ltb_spec (timestamp t) (timestamp x)) as [Hlt | Hge];
    [| reflexivity].
  cbn [List.filter] in IH |- *. rewrite IH.
  destruct (Z.eqb_spec (timestamp x) v), (Z.eqb_spec (timestamp t) v);
    try reflexivity. lia.
Qed.

(** X16. [sortHistory] puts the history latest first: its result holds
    the same records, in descending order of time stamp, records of the
    same time stamp in the order they had; a history that is latest
    first already is left as it is. *)
Theorem sortHistory_sorts (taskHistory : list Task) :
  sortHistory taskHistory ≡ₚ taskHistory /\
  latest_first (sortHistory taskHistory) /\
  (forall v, List.filter (fun x => (timestamp x =? v)%Z)
               (sortHistory taskHistory) =
             List.filter (fun x => (timestamp x =? v)%Z) taskHistory) /\
  (latest_first taskHistory -> sortHistory taskHistory = taskHistory).
Proof.
  unfold sortHistory. repeat split.
  - induction taskHistory as [|t l IH]; [reflexivity |].
    cbn [foldr]. rewrite insert_perm, IH. reflexivity.
  - induction taskHistory as [|t l IH]; [constructor |].
    cbn [foldr]. apply insert_latest_first, IH.
  - intros v. induction taskHistory as [|t l IH]; [reflexivity |].
    cbn [foldr]. rewrite insert_stable. cbn [List.filter]. rewrite IH.
    reflexivity.
  - induction 1 as [|t l Hl IH Ht]; [reflexivity |].
    cbn [foldr]. rewrite IH. apply insert_sorted.
    constructor; assumption.
Qed.

Lemma sortHistory_sorts_witness :
  let a := {| timestamp := 3000%Z; success := VBool true; duration := num 3;
              patchesTried := num 0; strategy := VStr "direct" |} in
  let b := {| timestamp := 1000%Z; success := VBool false; duration := num 9;
              patchesTried := num 4; strategy := VStr "ensemble" |} in
  sortHistory [a; b] = [a; b].
Proof.
  cbv zeta. apply (proj2 (proj2 (proj2 (sortHistory_sorts _)))).
  repeat constructor. cbn. lia.
Defined.

End History.
